(** * The account-security state machine of login-api-with-ia

    A shallow embedding of [src/models/User.js] (the in-memory user store,
    class [UserModel]) and of [src/controllers/authController.js] (class
    [AuthController]), followed by the properties of attempt tracking,
    lockout and password-reset tokens.

    Conventions of the embedding:
    - the module-level variables [users] and [nextId] are the fields of an
      explicit [State], threaded through a small state monad; an [await]ed
      call is a monadic bind;
    - timestamps ([Date] objects and ISO strings) are milliseconds since
      the epoch, in [Z]; every [new Date()] / [Date.now()] of the source is
      a clock reading passed to the function that performs it;
    - JavaScript values that may be [undefined], [null] or a string are
      [jsval]; [===] on them is equality;
    - [bcrypt], [jsonwebtoken] and [process.env.NODE_ENV] are external and
      collected in the class [Externals]; every call of [bcrypt.compare] is
      recorded in the ghost field [bcryptCalls] of the state. *)

From Stdlib Require Import ZArith Lia Ascii String.
From stdpp Require Import base option list strings relations.

Open Scope Z_scope.

(** ** JavaScript values *)

Inductive jsval : Type :=
| JUndefined
| JNull
| JStr (s : string).

#[global] Instance jsval_eq_dec : EqDecision jsval.
Proof. solve_decision. Defined.

(** [a === b] *)
Definition strict_eq (a b : jsval) : bool := bool_decide (a = b).

(** Truthiness, as in [if (email)] or [user.password ? ... : false]. *)
Definition truthy (v : jsval) : bool :=
  match v with
  | JStr EmptyString => false
  | JStr _ => true
  | _ => false
  end.

(** ** The [User] class *)

Module User.

Record t : Type := mk {
  id : Z;
  email : jsval;
  password : jsval;
  name : jsval;
  createdAt : Z;
  loginAttempts : Z;
  lastLoginAttempt : option Z;
  isLocked : bool;
  passwordResetToken : jsval;
  passwordResetExpires : option Z
}.

(** [new User(id, email, password, name, createdAt)] *)
Definition new (id : Z) (email password name : jsval) (createdAt : Z) : t :=
  {| id := id; email := email; password := password; name := name;
     createdAt := createdAt;
     loginAttempts := 0; lastLoginAttempt := None; isLocked := false;
     passwordResetToken := JNull; passwordResetExpires := None |}.

Definition set_email (v : jsval) (u : t) : t :=
  mk (id u) v (password u) (name u) (createdAt u) (loginAttempts u)
     (lastLoginAttempt u) (isLocked u) (passwordResetToken u)
     (passwordResetExpires u).

Definition set_password (v : jsval) (u : t) : t :=
  mk (id u) (email u) v (name u) (createdAt u) (loginAttempts u)
     (lastLoginAttempt u) (isLocked u) (passwordResetToken u)
     (passwordResetExpires u).

Definition set_name (v : jsval) (u : t) : t :=
  mk (id u) (email u) (password u) v (createdAt u) (loginAttempts u)
     (lastLoginAttempt u) (isLocked u) (passwordResetToken u)
     (passwordResetExpires u).

Definition set_loginAttempts (n : Z) (u : t) : t :=
  mk (id u) (email u) (password u) (name u) (createdAt u) n
     (lastLoginAttempt u) (isLocked u) (passwordResetToken u)
     (passwordResetExpires u).

Definition set_lastLoginAttempt (d : option Z) (u : t) : t :=
  mk (id u) (email u) (password u) (name u) (createdAt u) (loginAttempts u)
     d (isLocked u) (passwordResetToken u) (passwordResetExpires u).

Definition set_isLocked (b : bool) (u : t) : t :=
  mk (id u) (email u) (password u) (name u) (createdAt u) (loginAttempts u)
     (lastLoginAttempt u) b (passwordResetToken u) (passwordResetExpires u).

Definition set_passwordResetToken (v : jsval) (u : t) : t :=
  mk (id u) (email u) (password u) (name u) (createdAt u) (loginAttempts u)
     (lastLoginAttempt u) (isLocked u) v (passwordResetExpires u).

Definition set_passwordResetExpires (d : option Z) (u : t) : t :=
  mk (id u) (email u) (password u) (name u) (createdAt u) (loginAttempts u)
     (lastLoginAttempt u) (isLocked u) (passwordResetToken u) d.

End User.

(** ** The store and the monad of asynchronous calls *)

(** [users] and [nextId] are the module-level variables of User.js.
    [bcryptCalls] is ghost: the arguments of every [bcrypt.compare] made so
    far, oldest first. *)
Record State : Type := mkState {
  users : list User.t;
  nextId : Z;
  bcryptCalls : list (string * string)
}.

Definition initial : State := mkState [] 1 [].

Definition set_users (l : list User.t) (st : State) : State :=
  mkState l (nextId st) (bcryptCalls st).

Definition M (A : Type) : Type := State -> A * State.

Definition ret {A : Type} (a : A) : M A := fun st => (a, st).

Definition bind {A B : Type} (m : M A) (k : A -> M B) : M B :=
  fun st => let '(a, st') := m st in k a st'.

Definition get : M State := fun st => (st, st).

Definition put (st : State) : M unit := fun _ => (tt, st).

Notation "x <- c ;; k" := (bind c (fun x => k))
  (at level 100, c at next level, right associativity, only parsing).
Notation "c ;;; k" := (bind c (fun _ => k))
  (at level 100, right associativity, only parsing).

(** [Array.prototype.findIndex]: the first index whose element satisfies
    [p]; [None] stands for the result -1. *)
Fixpoint findIndex (p : User.t -> bool) (l : list User.t) : option nat :=
  match l with
  | [] => None
  | u :: l' => if p u then Some 0%nat else S <$> findIndex p l'
  end.

(** [Array.prototype.find]: the first element that satisfies [p]. *)
Fixpoint find (p : User.t -> bool) (l : list User.t) : option User.t :=
  match l with
  | [] => None
  | u :: l' => if p u then Some u else find p l'
  end.

Definition byEmail (email : jsval) (u : User.t) : bool :=
  strict_eq (User.email u) email.

(** [u.id === parseInt(id)], for an [id] that is a safe integer: there
    [String(id)] is [id] in decimal digits and [parseInt(id)] is [id]. *)
Definition byId (id : Z) (u : User.t) : bool := User.id u =? id.

(** [new Date(x)] for a stored date that may be [null]: [new Date(null)] is
    the epoch. *)
Definition dateOf (d : option Z) : Z := default 0 d.

(** The external collaborators. *)
Class Externals : Type := {
  (** [process.env.NODE_ENV] *)
  NODE_ENV : jsval;
  (** [bcrypt.compare(plain, digest)] *)
  bcrypt_compare : string -> string -> bool;
  (** [bcrypt.hash(plain, saltRounds)], with the salt it draws *)
  bcrypt_hash : string -> string -> string;
  (** [jwt.sign({ userId, email }, secret, options)], as a function of the
      payload; the library also stamps the second of signing, so tokens
      of different calls are not to be compared *)
  jwt_sign : Z -> jsval -> string
}.

(** The object literal handed to [UserModel.update]: a key is either absent
    ([None]) or present with a value, which may be [undefined]. The callers
    in this repository pass the keys [name], [email] and [password] only. *)
Record UpdateData : Type := mkUpdateData {
  upd_name : option jsval;
  upd_email : option jsval;
  upd_password : option jsval
}.

(** [{ ...user, ...updateData }]: every key present in [updateData]
    overwrites that of [user], also when its value is [undefined]. *)
Definition spread (user : User.t) (d : UpdateData) : User.t :=
  let u1 := match upd_name d with Some v => User.set_name v user | None => user end in
  let u2 := match upd_email d with Some v => User.set_email v u1 | None => u1 end in
  match upd_password d with Some v => User.set_password v u2 | None => u2 end.

(** ** [UserModel] (src/models/User.js) *)

Module UserModel.
Section WithExternals.
Context {ext : Externals}.

Definition isTest : bool := strict_eq NODE_ENV (JStr "test").

(** [process.env.NODE_ENV === 'test' ? 2000 : 15 * 60 * 1000] *)
Definition lockoutDuration : Z := if isTest then 2000 else 15 * 60 * 1000.

(** [process.env.NODE_ENV === 'test' ? 10000 : 60 * 60 * 1000] *)
Definition resetTTL : Z := if isTest then 10000 else 60 * 60 * 1000.

(** [static async create(userData)]; [now] is the reading of
    [new Date()] in the constructor. *)
Definition create (now : Z) (email password name : jsval) : M User.t :=
  st <- get ;;
  let user := User.new (nextId st) email password name now in
  put (mkState (users st ++ [user]) (nextId st + 1) (bcryptCalls st)) ;;;
  ret user.

Definition findByEmail (email : jsval) : M (option User.t) :=
  st <- get ;;
  ret (find (byEmail email) (users st)).

Definition findById (id : Z) : M (option User.t) :=
  st <- get ;;
  ret (find (byId id) (users st)).

Definition update (id : Z) (updateData : UpdateData) : M (option User.t) :=
  st <- get ;;
  match findIndex (byId id) (users st) with
  | None => ret None
  | Some userIndex =>
    match users st !! userIndex with
    | None => ret None
    | Some user =>
      let updatedUser := spread user updateData in
      put (set_users (<[userIndex := updatedUser]> (users st)) st) ;;;
      ret (Some updatedUser)
    end
  end.

(** [static async delete(id)] *)
Definition delete (id : Z) : M bool :=
  st <- get ;;
  match findIndex (byId id) (users st) with
  | None => ret false
  | Some userIndex =>
    put (set_users (take userIndex (users st) ++ drop (S userIndex) (users st)) st) ;;;
    ret true
  end.

(** The mutation of [trackLoginAttempt] on the record it found. *)
Definition recordAttempt (now : Z) (success : bool) (user : User.t) : User.t :=
  if success then
    User.set_lastLoginAttempt (Some now)
      (User.set_isLocked false (User.set_loginAttempts 0 user))
  else
    let user1 := User.set_loginAttempts (User.loginAttempts user + 1) user in
    let user2 := User.set_lastLoginAttempt (Some now) user1 in
    if 3 <=? User.loginAttempts user2 then User.set_isLocked true user2
    else user2.

(** [static async trackLoginAttempt(email, success)]; [now] is the
    reading of the clock (the source reads it once for [createdAt] of a
    temporary record and once for [lastLoginAttempt]; both readings are
    [now] here). *)
Definition trackLoginAttempt (now : Z) (email : jsval) (success : bool)
  : M (option User.t) :=
  st <- get ;;
  match findIndex (byEmail email) (users st) with
  | None =>
    if negb success then
      let tempUser := User.new (nextId st) email JNull JNull now in
      let user := recordAttempt now success tempUser in
      put (mkState (users st ++ [user]) (nextId st + 1) (bcryptCalls st)) ;;;
      ret (Some user)
    else ret None
  | Some userIndex =>
    match users st !! userIndex with
    | None => ret None
    | Some user0 =>
      let user := recordAttempt now success user0 in
      put (set_users (<[userIndex := user]> (users st)) st) ;;;
      ret (Some user)
    end
  end.

(** The auto-unlock mutation of [isAccountLocked]. *)
Definition unlock (user : User.t) : User.t :=
  User.set_isLocked false (User.set_loginAttempts 0 user).

(** [static async isAccountLocked(email)] *)
Definition isAccountLocked (now : Z) (email : jsval) : M bool :=
  st <- get ;;
  match find (byEmail email) (users st) with
  | None => ret false
  | Some user =>
    if User.isLocked user then ret true
    else
      match User.lastLoginAttempt user with
      | Some last =>
        let timeSinceLastAttempt := now - last in
        if (3 <=? User.loginAttempts user) && (timeSinceLastAttempt <? lockoutDuration)
        then ret true
        else if lockoutDuration <=? timeSinceLastAttempt then
          match findIndex (byEmail email) (users st) with
          | Some userIndex =>
            put (set_users (alter unlock userIndex (users st)) st) ;;;
            ret false
          | None => ret false
          end
        else ret false
      | None => ret false
      end
  end.

(** [static async generatePasswordResetToken(email)]; [rand] is the
    string drawn from [Math.random()]. *)
Definition generatePasswordResetToken (now : Z) (rand : string) (email : jsval)
  : M (option User.t) :=
  st <- get ;;
  match findIndex (byEmail email) (users st) with
  | None => ret None
  | Some userIndex =>
    match users st !! userIndex with
    | None => ret None
    | Some user0 =>
      let user :=
        User.set_passwordResetExpires (Some (now + resetTTL))
          (User.set_passwordResetToken (JStr rand) user0) in
      put (set_users (<[userIndex := user]> (users st)) st) ;;;
      ret (Some user)
    end
  end.

(** [static async verifyPasswordResetToken(email, token)] *)
Definition verifyPasswordResetToken (now : Z) (email token : jsval)
  : M (option User.t) :=
  st <- get ;;
  match find (byEmail email) (users st) with
  | None => ret None
  | Some user =>
    if negb (strict_eq (User.passwordResetToken user) token) then ret None
    else if dateOf (User.passwordResetExpires user) <? now then ret None
    else ret (Some user)
  end.

(** The mutation of [resetPassword] on the record it found. *)
Definition applyReset (newPassword : jsval) (user : User.t) : User.t :=
  User.set_isLocked false
    (User.set_loginAttempts 0
      (User.set_passwordResetExpires None
        (User.set_passwordResetToken JNull
          (User.set_password newPassword user)))).

(** [static async resetPassword(email, token, newPassword)] *)
Definition resetPassword (now : Z) (email token newPassword : jsval)
  : M (option User.t) :=
  st <- get ;;
  match findIndex (byEmail email) (users st) with
  | None => ret None
  | Some userIndex =>
    match users st !! userIndex with
    | None => ret None
    | Some user0 =>
      if negb (strict_eq (User.passwordResetToken user0) token) then ret None
      else if dateOf (User.passwordResetExpires user0) <? now then ret None
      else
        let user := applyReset newPassword user0 in
        put (set_users (<[userIndex := user]> (users st)) st) ;;;
        ret (Some user)
    end
  end.

Definition findAll : M (list User.t) :=
  st <- get ;;
  ret (users st).

(** [static async clear()] *)
Definition clear : M unit :=
  st <- get ;;
  put (mkState [] 1 (bcryptCalls st)).

End WithExternals.
End UserModel.


(** ** [AuthController] (src/controllers/authController.js) *)

(** The bodies handed to [res.status(...).json(...)], one constructor per
    kind of response; [status] gives the HTTP status of each.
    [ServerError] stands for [next(error)]. *)
Inductive Response : Type :=
| UserRegistered (user : User.t) (token : string)
| UserAlreadyExists
| AccountLocked
| AuthenticationFailed (remainingAttempts : option Z)
| LoginSuccessful (user : User.t) (token : string)
| ResetGenericMessage
| ResetLinkSent (resetToken : jsval)
| InvalidOrExpiredToken
| PasswordResetFailed
| PasswordResetSuccessful
| Profile (user : User.t)
| UserNotFound
| InvalidEmailFormat
| InvalidNameLength
| EmailAlreadyExists
| ProfileUpdated (user : User.t)
| InvalidCurrentPassword
| InvalidNewPassword
| UpdateFailed
| PasswordChanged
| ServerError.

Definition status (r : Response) : Z :=
  match r with
  | UserRegistered _ _ => 201
  | UserAlreadyExists => 409
  | AccountLocked => 423
  | AuthenticationFailed _ => 401
  | LoginSuccessful _ _ => 200
  | ResetGenericMessage => 200
  | ResetLinkSent _ => 200
  | InvalidOrExpiredToken => 400
  | PasswordResetFailed => 400
  | PasswordResetSuccessful => 200
  | Profile _ => 200
  | UserNotFound => 404
  | InvalidEmailFormat => 400
  | InvalidNameLength => 400
  | EmailAlreadyExists => 409
  | ProfileUpdated _ => 200
  | InvalidCurrentPassword => 401
  | InvalidNewPassword => 400
  | UpdateFailed => 500
  | PasswordChanged => 200
  | ServerError => 500
  end.

(** [const { password: _, ...userWithoutPassword } = user]: the copy has no
    [password] key, so reading it gives [undefined]. *)
Definition withoutPassword (user : User.t) : User.t :=
  User.set_password JUndefined user.

(** The character class [\s], on code units below 256. *)
Definition isSpace (c : ascii) : bool :=
  match nat_of_ascii c with
  | 9%nat | 10%nat | 11%nat | 12%nat | 13%nat | 32%nat | 160%nat => true
  | _ => false
  end.

(** The character class [[^\s@]]. *)
Definition plainChar (c : ascii) : bool :=
  negb (isSpace c) && negb (Ascii.eqb c "@").

(** Some ["."] of [l] has a character before it and one after it. *)
Fixpoint dotInside (l : list ascii) : bool :=
  match l with
  | _ :: ((d :: t) as r) =>
    (Ascii.eqb d "." && match t with [] => false | _ => true end) || dotInside r
  | _ => false
  end.

(** The local part (up to the first ["@"]) and what follows it. *)
Fixpoint splitAt (l : list ascii) : option (list ascii * list ascii) :=
  match l with
  | [] => None
  | c :: l' =>
    if Ascii.eqb c "@" then Some ([], l')
    else match splitAt l' with
         | Some (a, b) => Some (c :: a, b)
         | None => None
         end
  end.

(** [/^[^\s@]+@[^\s@]+\.[^\s@]+$/.test(s)] *)
Definition emailRegex_test (s : string) : bool :=
  match splitAt (list_ascii_of_string s) with
  | Some (localPart, rest) =>
    match localPart with [] => false | _ => true end
    && forallb plainChar localPart
    && forallb plainChar rest
    && dotInside rest
  | None => false
  end.

Module AuthController.
Section WithExternals.
Context {ext : Externals}.

(** [await bcrypt.compare(plain, digest)], recorded in [bcryptCalls]. *)
Definition bcryptCompare (plain digest : string) : M bool :=
  st <- get ;;
  put (mkState (users st) (nextId st) (bcryptCalls st ++ [(plain, digest)])) ;;;
  ret (bcrypt_compare plain digest).

(** [async register(req, res, next)] with [req.body = { email, password,
    name }]; [salt] is the salt drawn by [bcrypt.hash]. *)
Definition register (now : Z) (salt : string)
    (email : jsval) (password : string) (name : jsval) : M Response :=
  existingUser <- UserModel.findByEmail email ;;
  match existingUser with
  | Some _ => ret UserAlreadyExists
  | None =>
    let hashedPassword := bcrypt_hash salt password in
    user <- UserModel.create now email (JStr hashedPassword) name ;;
    let token := jwt_sign (User.id user) (User.email user) in
    ret (UserRegistered (withoutPassword user) token)
  end.

(** [user.password ? await bcrypt.compare(password, user.password) : false] *)
Definition verifyPassword (password : string) (user : User.t) : M bool :=
  match User.password user with
  | JStr digest =>
    if truthy (JStr digest) then bcryptCompare password digest else ret false
  | _ => ret false
  end.

(** [async login(req, res, next)] with [req.body = { email, password }];
    [tLock] is the clock read by [isAccountLocked] and [tTrack] the clock
    read by [trackLoginAttempt]. *)
Definition login (tLock tTrack : Z) (email : jsval) (password : string)
  : M Response :=
  isLocked <- UserModel.isAccountLocked tLock email ;;
  if (isLocked : bool) then ret AccountLocked
  else
    user <- UserModel.findByEmail email ;;
    match user with
    | None =>
      UserModel.trackLoginAttempt tTrack email false ;;;
      ret (AuthenticationFailed None)
    | Some user =>
      isPasswordValid <- verifyPassword password user ;;
      UserModel.trackLoginAttempt tTrack email isPasswordValid ;;;
      if negb isPasswordValid then
        updatedUser <- UserModel.findByEmail email ;;
        match updatedUser with
        | None => ret ServerError
        | Some updatedUser =>
          let remainingAttempts := 3 - User.loginAttempts updatedUser in
          if 0 <? remainingAttempts
          then ret (AuthenticationFailed (Some remainingAttempts))
          else ret AccountLocked
        end
      else
        let token := jwt_sign (User.id user) (User.email user) in
        ret (LoginSuccessful (withoutPassword user) token)
    end.

(** [async requestPasswordReset(req, res, next)]; [rand] is the string
    drawn from [Math.random()]. *)
Definition requestPasswordReset (now : Z) (rand : string) (email : jsval)
  : M Response :=
  user <- UserModel.findByEmail email ;;
  match user with
  | None => ret ResetGenericMessage
  | Some _ =>
    userWithToken <- UserModel.generatePasswordResetToken now rand email ;;
    match userWithToken with
    | None => ret ServerError
    | Some userWithToken =>
      ret (ResetLinkSent (User.passwordResetToken userWithToken))
    end
  end.

(** [async resetPassword(req, res, next)]; [tVerify] and [tReset] are the
    clocks read by [verifyPasswordResetToken] and by
    [UserModel.resetPassword]. *)
Definition resetPassword (tVerify tReset : Z) (salt : string)
    (email token : jsval) (newPassword : string) : M Response :=
  user <- UserModel.verifyPasswordResetToken tVerify email token ;;
  match user with
  | None => ret InvalidOrExpiredToken
  | Some _ =>
    let hashedPassword := bcrypt_hash salt newPassword in
    updatedUser <- UserModel.resetPassword tReset email token (JStr hashedPassword) ;;
    match updatedUser with
    | None => ret PasswordResetFailed
    | Some _ => ret PasswordResetSuccessful
    end
  end.

(** [async getProfile(req, res, next)] with [req.user.userId = userId]. *)
Definition getProfile (userId : Z) : M Response :=
  user <- UserModel.findById userId ;;
  match user with
  | None => ret UserNotFound
  | Some user => ret (Profile (withoutPassword user))
  end.

(** [name && (name.length < 2 || name.length > 50)] *)
Definition badNameLength (name : jsval) : bool :=
  match name with
  | JStr s =>
    truthy name
    && ((Z.of_nat (String.length s) <? 2) || (50 <? Z.of_nat (String.length s)))
  | _ => false
  end.

(** [email && !emailRegex.test(email)] *)
Definition badEmailFormat (email : jsval) : bool :=
  match email with
  | JStr s => truthy email && negb (emailRegex_test s)
  | _ => false
  end.

(** [async updateProfile(req, res, next)] with [req.body = { name, email }]:
    a key missing from the body is [JUndefined] here, as the destructuring
    [const { name, email } = req.body] makes it. *)
Definition updateProfile (userId : Z) (name email : jsval) : M Response :=
  if badEmailFormat email then ret InvalidEmailFormat
  else if badNameLength name then ret InvalidNameLength
  else
    taken <-
      (if truthy email then
         existingUser <- UserModel.findByEmail email ;;
         ret (match existingUser with
              | Some existingUser => negb (User.id existingUser =? userId)
              | None => false
              end)
       else ret false) ;;
    if (taken : bool) then ret EmailAlreadyExists
    else
      updatedUser <- UserModel.update userId (mkUpdateData (Some name) (Some email) None) ;;
      match updatedUser with
      | None => ret UserNotFound
      | Some updatedUser => ret (ProfileUpdated (withoutPassword updatedUser))
      end.

(** [async changePassword(req, res, next)]; [bcrypt.compare] throws on a
    digest that is not a string. *)
Definition changePassword (userId : Z) (salt : string)
    (currentPassword newPassword : string) : M Response :=
  user <- UserModel.findById userId ;;
  match user with
  | None => ret UserNotFound
  | Some user =>
    match User.password user with
    | JStr digest =>
      isCurrentPasswordValid <- bcryptCompare currentPassword digest ;;
      if negb isCurrentPasswordValid then ret InvalidCurrentPassword
      else
        isSamePassword <- bcryptCompare newPassword digest ;;
        if (isSamePassword : bool) then ret InvalidNewPassword
        else
          let hashedNewPassword := bcrypt_hash salt newPassword in
          updatedUser <-
            UserModel.update userId
              (mkUpdateData None None (Some (JStr hashedNewPassword))) ;;
          match updatedUser with
          | None => ret UpdateFailed
          | Some _ => ret PasswordChanged
          end
    | _ => ret ServerError
    end
  end.

(** A request to the API, with the clock readings and random draws its
    handler makes. *)
Inductive Request : Type :=
| Register (now : Z) (salt : string) (email : jsval) (password : string) (name : jsval)
| Login (tLock tTrack : Z) (email : jsval) (password : string)
| RequestPasswordReset (now : Z) (rand : string) (email : jsval)
| ResetPassword (tVerify tReset : Z) (salt : string) (email token : jsval) (newPassword : string)
| GetProfile (userId : Z)
| UpdateProfile (userId : Z) (name email : jsval)
| ChangePassword (userId : Z) (salt : string) (currentPassword newPassword : string).

Definition handle (r : Request) : M Response :=
  match r with
  | Register now salt email password name => register now salt email password name
  | Login tLock tTrack email password => login tLock tTrack email password
  | RequestPasswordReset now rand email => requestPasswordReset now rand email
  | ResetPassword tVerify tReset salt email token newPassword =>
    resetPassword tVerify tReset salt email token newPassword
  | GetProfile userId => getProfile userId
  | UpdateProfile userId name email => updateProfile userId name email
  | ChangePassword userId salt currentPassword newPassword =>
    changePassword userId salt currentPassword newPassword
  end.

(** The states the API reaches from the empty store, one request after the
    other. *)
Inductive reachable : State -> Prop :=
| reachable_initial : reachable initial
| reachable_handle st r :
    reachable st -> reachable (snd (handle r st)).

End WithExternals.
End AuthController.

(** A concrete environment to run the model in: production settings, a
    digest that is the salted plain text. *)
Definition demoHash (salt plain : string) : string := (salt ++ "$" ++ plain)%string.

Definition demoCompare (plain digest : string) : bool :=
  match index 0 "$" digest with
  | Some n => String.eqb (substring (S n) (String.length digest - S n) digest) plain
  | None => false
  end.

Definition demoExt : Externals :=
  {| NODE_ENV := JUndefined;
     bcrypt_compare := demoCompare;
     bcrypt_hash := demoHash;
     jwt_sign := fun _ _ => "jwt"%string |}.

Definition run {A : Type} (m : M A) (st : State) : State := snd (m st).
Definition result {A : Type} (m : M A) (st : State) : A := fst (m st).


(** ** Derived notions used by the specifications *)

Section Derived.
Context {ext : Externals}.

(** What [isAccountLocked] answers for the record it found, and the record
    it leaves behind. *)
Definition lockCheck (now : Z) (u : User.t) : bool * User.t :=
  if User.isLocked u then (true, u)
  else
    match User.lastLoginAttempt u with
    | Some last =>
      if (3 <=? User.loginAttempts u) && (now - last <? UserModel.lockoutDuration)
      then (true, u)
      else if UserModel.lockoutDuration <=? now - last
           then (false, UserModel.unlock u)
           else (false, u)
    | None => (false, u)
    end.

(** The value of [isPasswordValid] in [login]. *)
Definition passwordValid (password : string) (u : User.t) : bool :=
  match User.password u with
  | JStr digest => truthy (JStr digest) && bcrypt_compare password digest
  | _ => false
  end.

(** The calls of [bcrypt.compare] made by [login] for the record [u]. *)
Definition compareLog (password : string) (u : User.t) : list (string * string) :=
  match User.password u with
  | JStr digest => if truthy (JStr digest) then [(password, digest)] else []
  | _ => []
  end.

(** The answer of [login] after the failed attempt that left [u]. *)
Definition failureResponse (u : User.t) : Response :=
  if 0 <? 3 - User.loginAttempts u
  then AuthenticationFailed (Some (3 - User.loginAttempts u))
  else AccountLocked.

(** The answer of [login] for the record [u] found under the email, the
    record it leaves, and the [bcrypt.compare] calls it makes. *)
Definition loginOutcome (tLock tTrack : Z) (password : string) (u : User.t)
  : Response * User.t * list (string * string) :=
  let '(locked, u1) := lockCheck tLock u in
  if locked then (AccountLocked, u1, [])
  else
    let valid := passwordValid password u1 in
    let u2 := UserModel.recordAttempt tTrack valid u1 in
    (if valid
     then LoginSuccessful (withoutPassword u1) (jwt_sign (User.id u1) (User.email u1))
     else failureResponse u2,
     u2, compareLog password u1).

(** The temporary record that [trackLoginAttempt] creates for an email
    with no account, after its first failed attempt is counted. *)
Definition placeholder (st : State) (now : Z) (email : jsval) : User.t :=
  UserModel.recordAttempt now false (User.new (nextId st) email JNull JNull now).

(** [locked == true] implies [failedAttemptCount >= 3]. *)
Definition lockedAtThreshold (u : User.t) : Prop :=
  User.isLocked u = true -> 3 <= User.loginAttempts u.

(** The counter is at most the threshold, and a record at the threshold is
    locked. *)
Definition withinThreshold (u : User.t) : Prop :=
  User.loginAttempts u <= 3 /\ (User.loginAttempts u = 3 -> User.isLocked u = true).

(** The validity of a reset token in the words of the specification: the
    account exists, the stored token is exactly [token], and [now] is not
    after the stored expiry. *)
Definition tokenValid (now : Z) (email token : jsval) (st : State) : bool :=
  match find (byEmail email) (users st) with
  | Some u =>
    strict_eq (User.passwordResetToken u) token
    && (now <=? dateOf (User.passwordResetExpires u))
  | None => false
  end.

(** Every operation of the store, as one step of the system. The methods of
    [UserModel] are steps of their own, next to the handlers of the API. *)
Inductive step : State -> State -> Prop :=
| step_create now email password name st :
    step st (run (UserModel.create now email password name) st)
| step_update id d st :
    step st (run (UserModel.update id d) st)
| step_delete id st :
    step st (run (UserModel.delete id) st)
| step_trackLoginAttempt now email success st :
    step st (run (UserModel.trackLoginAttempt now email success) st)
| step_isAccountLocked now email st :
    step st (run (UserModel.isAccountLocked now email) st)
| step_generatePasswordResetToken now rand email st :
    step st (run (UserModel.generatePasswordResetToken now rand email) st)
| step_verifyPasswordResetToken now email token st :
    step st (run (UserModel.verifyPasswordResetToken now email token) st)
| step_resetPassword now email token newPassword st :
    step st (run (UserModel.resetPassword now email token newPassword) st)
| step_clear st :
    step st (run UserModel.clear st)
| step_handle r st :
    step st (run (AuthController.handle r) st).

(** The states reached from the empty store by any sequence of steps. *)
Definition stepReachable (st : State) : Prop := rtc step initial st.

(** A monadic computation keeps [I] when it maps states of [I] to states
    of [I]. *)
Definition keeps {A : Type} (I : State -> Prop) (m : M A) : Prop :=
  forall st, I st -> I (snd (m st)).

(** Every stored record satisfies [P]. *)
Definition everyUser (P : User.t -> Prop) (st : State) : Prop :=
  Forall P (users st).

(** The number of stored records with the given email. *)
Definition countEmail (email : jsval) (st : State) : nat :=
  length (filter (fun u => User.email u = email) (users st)).

(** *** Notions used by the further properties *)

(** The identifier and the email of every stored record, in order. *)
Definition keysOf (st : State) : list (Z * jsval) :=
  (fun u => (User.id u, User.email u)) <$> users st.

(** What the lookups of the store depend on: the keys and [nextId]. *)
Definition keyed (st : State) : list (Z * jsval) * Z := (keysOf st, nextId st).

(** Identifiers are positive, below [nextId], and pairwise distinct. *)
Definition idsFresh (k : list (Z * jsval) * Z) : Prop :=
  1 <= k.2
  /\ Forall (fun p => 1 <= p.1 < k.2) k.1
  /\ NoDup (k.1).*1.

(** No email that is truthy is the key of two records. *)
Definition emailsDistinct (k : list (Z * jsval) * Z) : Prop :=
  forall i j a b e,
    k.1 !! i = Some (a, e) -> k.1 !! j = Some (b, e) -> truthy e = true -> i = j.

(** The reset token and its expiry are both null or both set. *)
Definition tokenPaired (u : User.t) : Prop :=
  match User.passwordResetToken u, User.passwordResetExpires u with
  | JNull, None => True
  | JStr _, Some _ => True
  | _, _ => False
  end.

(** The counter is between 0 and the threshold, and the record is locked
    exactly at the threshold. *)
Definition counted (u : User.t) : Prop :=
  0 <= User.loginAttempts u <= 3
  /\ (User.isLocked u = true <-> User.loginAttempts u = 3).

(** The user object a response carries, if any. *)
Definition carried (r : Response) : option User.t :=
  match r with
  | UserRegistered u _ | LoginSuccessful u _ | Profile u | ProfileUpdated u => Some u
  | _ => None
  end.

(** Every result of [m] satisfies [Q]. *)
Definition returns {A : Type} (Q : A -> Prop) (m : M A) : Prop :=
  forall st, Q (fst (m st)).

(** From [st] to [st'] no record is removed or moved, and none changes its
    [id] or [createdAt]; [nextId] does not decrease. *)
Definition grows (st st' : State) : Prop :=
  nextId st <= nextId st'
  /\ forall i u, users st !! i = Some u ->
       exists u', users st' !! i = Some u'
                  /\ User.id u' = User.id u
                  /\ User.createdAt u' = User.createdAt u.

(** The record [generatePasswordResetToken] writes back. *)
Definition withToken (now : Z) (rand : string) (u : User.t) : User.t :=
  User.set_passwordResetExpires (Some (now + UserModel.resetTTL))
    (User.set_passwordResetToken (JStr rand) u).

(** The record a successful login writes back. *)
Definition loggedIn (now : Z) (u : User.t) : User.t :=
  User.set_lastLoginAttempt (Some now)
    (User.set_isLocked false (User.set_loginAttempts 0 u)).

(** The last attempt on the record is at least the lockout duration before
    [now]. *)
Definition stale (now : Z) (u : User.t) : bool :=
  match User.lastLoginAttempt u with
  | Some last => UserModel.lockoutDuration <=? now - last
  | None => false
  end.

(** The strings [/^[^\s@]+@[^\s@]+\.[^\s@]+$/] describes: a local part, an
    ["@"], a domain, a ["."] and an ending, the three parts not empty and
    made of characters that are neither white space nor ["@"]. *)
Definition emailShape (s : string) : Prop :=
  exists a b c : list ascii,
    list_ascii_of_string s = a ++ "@"%char :: b ++ "."%char :: c
    /\ a <> [] /\ b <> [] /\ c <> []
    /\ Forall (fun x => plainChar x = true) (a ++ b ++ c).

(** The identifiers for which [parseInt(id)] is [id]: the safe integers,
    which [String] writes in plain decimal digits. The lookups by
    identifier, [u.id === parseInt(id)], are modelled for these. *)
Definition safeInteger (id : Z) : Prop :=
  - (2 ^ 53 - 1) <= id <= 2 ^ 53 - 1.

(** *** [login], one [await] at a time *)

(** Where a [login] in progress is suspended: at one of its [await]s, with
    the value the awaited call resolved to and the local variables of the
    handler. *)
Inductive LoginPoint : Type :=
| BeforeLockCheck
| AfterLockCheck (isLocked : bool)
| AfterFind (user : option User.t)
| AfterCompare (user : User.t) (isPasswordValid : bool)
| AfterTrackUnknown
| AfterTrack (user : User.t) (isPasswordValid : bool)
| AfterRefetch (updatedUser : option User.t)
| Responded (r : Response).

(** A [login] in progress: the request, the clock readings its calls make,
    and the point it is suspended at. *)
Record LoginThread : Type := mkLoginThread {
  th_tLock : Z;
  th_tTrack : Z;
  th_email : jsval;
  th_password : string;
  th_point : LoginPoint
}.

(** The handler resumed at a point: it runs to its next [await], makes the
    awaited call, and is suspended again with the result. The methods of
    [UserModel] have no [await] of their own, so each call is one step. *)
Definition resume (th : LoginThread) : M LoginPoint :=
  match th_point th with
  | BeforeLockCheck =>
    isLocked <- UserModel.isAccountLocked (th_tLock th) (th_email th) ;;
    ret (AfterLockCheck isLocked)
  | AfterLockCheck isLocked =>
    if isLocked then ret (Responded AccountLocked)
    else
      user <- UserModel.findByEmail (th_email th) ;;
      ret (AfterFind user)
  | AfterFind None =>
    UserModel.trackLoginAttempt (th_tTrack th) (th_email th) false ;;;
    ret AfterTrackUnknown
  | AfterFind (Some user) =>
    if truthy (User.password user) then
      isPasswordValid <- AuthController.verifyPassword (th_password th) user ;;
      ret (AfterCompare user isPasswordValid)
    else
      UserModel.trackLoginAttempt (th_tTrack th) (th_email th) false ;;;
      ret (AfterTrack user false)
  | AfterCompare user isPasswordValid =>
    UserModel.trackLoginAttempt (th_tTrack th) (th_email th) isPasswordValid ;;;
    ret (AfterTrack user isPasswordValid)
  | AfterTrackUnknown => ret (Responded (AuthenticationFailed None))
  | AfterTrack user isPasswordValid =>
    if negb isPasswordValid then
      updatedUser <- UserModel.findByEmail (th_email th) ;;
      ret (AfterRefetch updatedUser)
    else
      ret (Responded (LoginSuccessful (withoutPassword user)
                        (jwt_sign (User.id user) (User.email user))))
  | AfterRefetch None => ret (Responded ServerError)
  | AfterRefetch (Some updatedUser) =>
    let remainingAttempts := 3 - User.loginAttempts updatedUser in
    if 0 <? remainingAttempts
    then ret (Responded (AuthenticationFailed (Some remainingAttempts)))
    else ret (Responded AccountLocked)
  | Responded r => ret (Responded r)
  end.

Definition at_point (th : LoginThread) (p : LoginPoint) : LoginThread :=
  mkLoginThread (th_tLock th) (th_tTrack th) (th_email th) (th_password th) p.

(** A [login] resumed [n] times in a row, with nothing in between. *)
Fixpoint resumeN (n : nat) (th : LoginThread) : M LoginThread :=
  match n with
  | O => ret th
  | S n' => p <- resume th ;; resumeN n' (at_point th p)
  end.

(** The store and the logins in progress; [advance k] resumes the [k]-th
    of them up to its next [await]. *)
Definition advance (k : nat) (cfg : State * list LoginThread)
  : State * list LoginThread :=
  match cfg.2 !! k with
  | None => cfg
  | Some th =>
    let '(p, st') := resume th cfg.1 in (st', <[k := at_point th p]> cfg.2)
  end.

Definition runSchedule (schedule : list nat) (cfg : State * list LoginThread)
  : State * list LoginThread :=
  fold_left (fun c k => advance k c) schedule cfg.

(** The configurations the API reaches when logins may overlap: from a
    state reached by whole requests, a login may start at any time, and
    any login in progress may be resumed next. *)
Inductive interleaved : State * list LoginThread -> Prop :=
| interleaved_start st :
    AuthController.reachable st -> interleaved (st, [])
| interleaved_request st ths tLock tTrack email password :
    interleaved (st, ths) ->
    interleaved (st, ths ++ [mkLoginThread tLock tTrack email password BeforeLockCheck])
| interleaved_advance cfg k :
    interleaved cfg -> interleaved (advance k cfg).

End Derived.

(** ** Concrete stores used in the examples *)

Section Examples.
#[local] Existing Instance demoExt.

Definition jane : jsval := JStr "jane@example.com".

(** jane registered at time 1000. *)
Definition janeRegistered : State :=
  run (AuthController.register 1000 "s" jane "Password123" (JStr "Jane Doe")) initial.

(** jane after three failed logins, the last one tracked at time 4001. *)
Definition janeLocked : State :=
  run (AuthController.login 4000 4001 jane "Wrong123")
    (run (AuthController.login 3000 3001 jane "Wrong123")
      (run (AuthController.login 2000 2001 jane "Wrong123") janeRegistered)).

(** jane after [requestPasswordReset] at time 5000 drew the token "tok". *)
Definition janeWithToken : State :=
  run (AuthController.requestPasswordReset 5000 "tok" jane) janeLocked.

(** jane after the reset is completed at time 6000. *)
Definition janeReset : State :=
  run (UserModel.resetPassword 6000 jane (JStr "tok") (JStr "s2$NewPass123"))
    janeWithToken.

(** The record of jane in [janeRegistered] and in [janeLocked]. *)
Definition janeRecord : User.t :=
  User.new 1 jane (JStr "s$Password123") (JStr "Jane Doe") 1000.

Definition janeLockedRecord : User.t :=
  User.mk 1 jane (JStr "s$Password123") (JStr "Jane Doe") 1000
    3 (Some 4001) true JNull None.

(** An email nobody registered, and the store after one login with it. *)
Definition ghost : jsval := JStr "ghost@example.com".

Definition ghostTracked : State :=
  run (AuthController.login 2000 2001 ghost "Guess123") initial.

Definition ghostRecord : User.t :=
  User.mk 1 ghost JNull JNull 2001 1 (Some 2001) false JNull None.

(** The first instant after the lockout of [janeLocked] has run out. *)
Definition afterLockout : Z := 4001 + 15 * 60 * 1000.

(** jane after one and after two failed logins, and her records then. *)
Definition janeOnce : State :=
  run (AuthController.login 2000 2001 jane "Wrong123") janeRegistered.

Definition janeTwice : State :=
  run (AuthController.login 3000 3001 jane "Wrong123") janeOnce.

Definition janeOnceRecord : User.t :=
  User.mk 1 jane (JStr "s$Password123") (JStr "Jane Doe") 1000
    1 (Some 2001) false JNull None.

Definition janeTwiceRecord : User.t :=
  User.mk 1 jane (JStr "s$Password123") (JStr "Jane Doe") 1000
    2 (Some 3001) false JNull None.

(** The record of jane in [janeWithToken]. *)
Definition janeTokenRecord : User.t :=
  User.mk 1 jane (JStr "s$Password123") (JStr "Jane Doe") 1000
    3 (Some 4001) true (JStr "tok") (Some 3605000).

(** A second account, registered after jane. *)
Definition bob : jsval := JStr "bob@example.com".

Definition bobRecord : User.t :=
  User.new 2 bob (JStr "s$Hunter2222") (JStr "Bob Roe") 1500.

Definition janeAndBob : State :=
  run (AuthController.register 1500 "s" bob "Hunter2222" (JStr "Bob Roe")) janeRegistered.

(** Four logins for jane with a wrong password, none of them started yet,
    and the order in which the server resumes them when they overlap: each
    passes the lock check, finds the record and starts [bcrypt.compare]
    before the first comparison is over; then each records its attempt,
    reads the record again and answers. *)
Definition fourLogins : list LoginThread :=
  [mkLoginThread 2000 2100 jane "Wrong123" BeforeLockCheck;
   mkLoginThread 2001 2101 jane "Wrong123" BeforeLockCheck;
   mkLoginThread 2002 2102 jane "Wrong123" BeforeLockCheck;
   mkLoginThread 2003 2103 jane "Wrong123" BeforeLockCheck].

Definition overlapped : list nat :=
  [0; 0; 0; 1; 1; 1; 2; 2; 2; 3; 3; 3;
   0; 0; 0; 1; 1; 1; 2; 2; 2; 3; 3; 3]%nat.

Definition janeOverrun : User.t :=
  User.mk 1 jane (JStr "s$Password123") (JStr "Jane Doe") 1000
    4 (Some 2103) true JNull None.

End Examples.

(** ** Facts on [find] and [findIndex] *)

Lemma find_findIndex p l : find p l = findIndex p l ≫= (l !!.).
Proof.
  induction l as [|u l IH]; simpl; [done|].
  destruct (p u); simpl; [done|].
  rewrite IH. by destruct (findIndex p l).
Qed.

Lemma findIndex_Some p l i :
  findIndex p l = Some i -> exists u, l !! i = Some u /\ p u = true.
Proof.
  revert i. induction l as [|u l IH]; intros i; simpl; [done|].
  destruct (p u) eqn:Hp.
  - intros [= <-]. eauto.
  - destruct (findIndex p l) as [j|]; simpl; [|done].
    intros [= <-]. simpl. eauto.
Qed.

Lemma findIndex_None p l :
  findIndex p l = None -> Forall (fun u => p u = false) l.
Proof.
  induction l as [|u l IH]; simpl; [constructor|].
  destruct (p u) eqn:Hp; [done|].
  destruct (findIndex p l); simpl; [done|]. intros _. constructor; auto.
Qed.

Lemma find_None_findIndex p l : find p l = None -> findIndex p l = None.
Proof.
  rewrite find_findIndex. destruct (findIndex p l) as [i|] eqn:Hi; [|done].
  apply findIndex_Some in Hi as (u & Hu & _). simpl. by rewrite Hu.
Qed.

Lemma find_Some_findIndex p l u :
  find p l = Some u ->
  exists i, findIndex p l = Some i /\ l !! i = Some u /\ p u = true.
Proof.
  rewrite find_findIndex. destruct (findIndex p l) as [i|] eqn:Hi; [|done].
  simpl. intros Hu. exists i. split; [done|]. split; [done|].
  apply findIndex_Some in Hi as (u' & Hu' & Hp). congruence.
Qed.

Lemma findIndex_find p l i u :
  findIndex p l = Some i -> l !! i = Some u -> find p l = Some u.
Proof. intros Hi Hu. rewrite find_findIndex, Hi. done. Qed.

(** Replacing the record found by one that still satisfies the predicate
    leaves it the first match. *)
Lemma findIndex_insert p l i u :
  findIndex p l = Some i -> p u = true -> findIndex p (<[i:=u]> l) = Some i.
Proof.
  revert i. induction l as [|v l IH]; intros i; simpl; [done|].
  destruct (p v) eqn:Hp.
  - intros [= <-] Hu. simpl. by rewrite Hu.
  - destruct (findIndex p l) as [j|] eqn:Hj; simpl; [|done].
    intros [= <-] Hu. simpl. rewrite Hp. by rewrite (IH j).
Qed.

Lemma findIndex_app_None p l u :
  findIndex p l = None -> p u = true ->
  findIndex p (l ++ [u]) = Some (length l).
Proof.
  induction l as [|v l IH]; simpl; intros Hn Hu.
  - by rewrite Hu.
  - destruct (p v); [done|].
    destruct (findIndex p l); [done|]. by rewrite IH.
Qed.

Lemma findIndex_lt p l i : findIndex p l = Some i -> (i < length l)%nat.
Proof.
  intros Hi. apply findIndex_Some in Hi as (u & Hu & _).
  by eapply lookup_lt_Some.
Qed.

Lemma alter_insert (f : User.t -> User.t) (l : list User.t) i u :
  l !! i = Some u -> alter f i l = <[i := f u]> l.
Proof.
  revert i. induction l as [|v l IH]; intros [|i]; simpl; try done.
  - by intros [= ->].
  - intros Hu. f_equal. by apply IH.
Qed.

Lemma set_users_id st : set_users (users st) st = st.
Proof. by destruct st. Qed.


(** ** Closed forms of the operations on the record found under an email *)

Section Properties.
Context {ext : Externals}.

Lemma byEmail_recordAttempt now success e u :
  byEmail e (UserModel.recordAttempt now success u) = byEmail e u.
Proof.
  unfold UserModel.recordAttempt. destruct success; simpl; [done|].
  by destruct (3 <=? _).
Qed.

Lemma byEmail_lockCheck now e u : byEmail e (snd (lockCheck now u)) = byEmail e u.
Proof.
  unfold lockCheck. destruct (User.isLocked u); [done|].
  destruct (User.lastLoginAttempt u); [|done].
  destruct (_ && _); [done|]. by destruct (_ <=? _).
Qed.

Lemma isAccountLocked_absent now e st :
  find (byEmail e) (users st) = None ->
  UserModel.isAccountLocked now e st = (false, st).
Proof. intros H. unfold UserModel.isAccountLocked, bind, get. by rewrite H. Qed.

Lemma isAccountLocked_found now e st i u :
  findIndex (byEmail e) (users st) = Some i ->
  users st !! i = Some u ->
  UserModel.isAccountLocked now e st
  = (fst (lockCheck now u), set_users (<[i := snd (lockCheck now u)]> (users st)) st).
Proof.
  intros Hi Hu. unfold UserModel.isAccountLocked, lockCheck, bind, get.
  rewrite (findIndex_find _ _ _ _ Hi Hu), Hi.
  destruct (User.isLocked u); simpl.
  { by rewrite list_insert_id, set_users_id. }
  destruct (User.lastLoginAttempt u) as [last|]; simpl.
  2: { by rewrite list_insert_id, set_users_id. }
  destruct (_ && _); simpl.
  { by rewrite list_insert_id, set_users_id. }
  destruct (_ <=? _); simpl.
  - by rewrite (alter_insert _ _ _ _ Hu).
  - by rewrite list_insert_id, set_users_id.
Qed.

Lemma trackLoginAttempt_found now e success st i u :
  findIndex (byEmail e) (users st) = Some i ->
  users st !! i = Some u ->
  UserModel.trackLoginAttempt now e success st
  = (Some (UserModel.recordAttempt now success u),
     set_users (<[i := UserModel.recordAttempt now success u]> (users st)) st).
Proof.
  intros Hi Hu. unfold UserModel.trackLoginAttempt, bind, get.
  by rewrite Hi, Hu.
Qed.

Lemma trackLoginAttempt_absent now e st :
  findIndex (byEmail e) (users st) = None ->
  UserModel.trackLoginAttempt now e false st
  = (Some (placeholder st now e),
     mkState (users st ++ [placeholder st now e]) (nextId st + 1) (bcryptCalls st)).
Proof.
  intros Hi. unfold UserModel.trackLoginAttempt, bind, get. by rewrite Hi.
Qed.

Lemma verifyPassword_eq password u st :
  AuthController.verifyPassword password u st
  = (passwordValid password u,
     mkState (users st) (nextId st) (bcryptCalls st ++ compareLog password u)).
Proof.
  unfold AuthController.verifyPassword, passwordValid, compareLog.
  destruct st as [l n c]. simpl.
  destruct (User.password u) as [| |d]; simpl; rewrite ?app_nil_r; try done.
  destruct d; simpl; rewrite ?app_nil_r; done.
Qed.

(** [login] on an email that has a record. *)
Lemma login_found tLock tTrack e password st i u :
  findIndex (byEmail e) (users st) = Some i ->
  users st !! i = Some u ->
  AuthController.login tLock tTrack e password st
  = let '(r, u', calls) := loginOutcome tLock tTrack password u in
    (r, mkState (<[i := u']> (users st)) (nextId st) (bcryptCalls st ++ calls)).
Proof.
  intros Hi Hu.
  assert (He : byEmail e u = true).
  { apply findIndex_Some in Hi as (u' & Hu' & Hp). congruence. }
  unfold AuthController.login, loginOutcome, bind at 1.
  rewrite (isAccountLocked_found _ _ _ _ _ Hi Hu).
  pose proof (byEmail_lockCheck tLock e u) as He1. rewrite He in He1.
  destruct (lockCheck tLock u) as [locked u1]; simpl in *.
  destruct locked; simpl.
  { by rewrite app_nil_r. }
  assert (Hi1 : findIndex (byEmail e) (<[i:=u1]> (users st)) = Some i)
    by (by apply findIndex_insert).
  assert (Hu1 : <[i:=u1]> (users st) !! i = Some u1).
  { apply list_lookup_insert_eq. by eapply findIndex_lt. }
  unfold bind, UserModel.findByEmail, get, ret; simpl.
  rewrite (findIndex_find _ _ _ _ Hi1 Hu1).
  rewrite verifyPassword_eq; simpl.
  set (valid := passwordValid password u1).
  set (u2 := UserModel.recordAttempt tTrack valid u1).
  erewrite trackLoginAttempt_found; [|exact Hi1|exact Hu1]; simpl.
  rewrite list_insert_insert_eq. fold u2.
  destruct valid eqn:Hv; simpl; [done|].
  assert (He2 : byEmail e u2 = true).
  { unfold u2. by rewrite byEmail_recordAttempt. }
  erewrite findIndex_find;
    [| by apply findIndex_insert
     | apply list_lookup_insert_eq; by eapply findIndex_lt ].
  unfold failureResponse. by destruct (0 <? _).
Qed.

(** [login] on an email that has no record. *)
Lemma login_absent tLock tTrack e password st :
  find (byEmail e) (users st) = None ->
  AuthController.login tLock tTrack e password st
  = (AuthenticationFailed None,
     mkState (users st ++ [placeholder st tTrack e]) (nextId st + 1) (bcryptCalls st)).
Proof.
  intros Hn. unfold AuthController.login, bind at 1.
  rewrite (isAccountLocked_absent _ _ _ Hn).
  unfold bind, UserModel.findByEmail, get, ret; simpl. rewrite Hn.
  by rewrite (trackLoginAttempt_absent _ _ _ (find_None_findIndex _ _ Hn)).
Qed.


Lemma found_index e st u :
  find (byEmail e) (users st) = Some u ->
  exists i, findIndex (byEmail e) (users st) = Some i /\ users st !! i = Some u.
Proof. intros H. apply find_Some_findIndex in H as (i & ? & ? & _). eauto. Qed.

(** After [login] the record under the email is the one [loginOutcome]
    leaves, at the same index. *)
Lemma login_found_run tLock tTrack e password st i u :
  findIndex (byEmail e) (users st) = Some i ->
  users st !! i = Some u ->
  let u' := snd (fst (loginOutcome tLock tTrack password u)) in
  result (AuthController.login tLock tTrack e password) st
  = fst (fst (loginOutcome tLock tTrack password u))
  /\ findIndex (byEmail e) (users (run (AuthController.login tLock tTrack e password) st)) = Some i
  /\ users (run (AuthController.login tLock tTrack e password) st) !! i = Some u'
  /\ find (byEmail e) (users (run (AuthController.login tLock tTrack e password) st)) = Some u'.
Proof.
  intros Hi Hu u'. unfold run, result, u'.
  rewrite (login_found _ _ _ _ _ _ _ Hi Hu).
  assert (He : byEmail e u = true).
  { apply findIndex_Some in Hi as (v & Hv & Hp). congruence. }
  assert (He' : byEmail e (snd (fst (loginOutcome tLock tTrack password u))) = true).
  { unfold loginOutcome.
    pose proof (byEmail_lockCheck tLock e u) as H1. rewrite He in H1.
    destruct (lockCheck tLock u) as [[] u1]; simpl in *; [done|].
    by rewrite byEmail_recordAttempt. }
  destruct (loginOutcome tLock tTrack password u) as [[r v] calls]; simpl in *.
  assert (Hi' : findIndex (byEmail e) (<[i:=v]> (users st)) = Some i)
    by (by apply findIndex_insert).
  assert (Hv : <[i:=v]> (users st) !! i = Some v).
  { apply list_lookup_insert_eq. by eapply findIndex_lt. }
  repeat split; try done. by eapply findIndex_find.
Qed.

(** A record with [isLocked] set is answered [AccountLocked] at any time,
    and nothing is written. *)
Lemma login_isLocked tLock tTrack e password st u :
  find (byEmail e) (users st) = Some u ->
  User.isLocked u = true ->
  AuthController.login tLock tTrack e password st = (AccountLocked, st).
Proof.
  intros Hf Hl. destruct (found_index _ _ _ Hf) as (i & Hi & Hu).
  rewrite (login_found _ _ _ _ _ _ _ Hi Hu).
  unfold loginOutcome, lockCheck. rewrite Hl. simpl.
  rewrite list_insert_id, app_nil_r by done. by destruct st.
Qed.

(** C4: a login attempt against an account that is locked and whose
    lockout has not expired is answered [AccountLocked] (status 423); the
    state after it is the state before it, so no attempt is recorded
    ([loginAttempts], [lastLoginAttempt] and [isLocked] are unchanged) and
    [bcrypt.compare] is not called. *)
Theorem login_while_locked tLock tTrack e password st u last :
  find (byEmail e) (users st) = Some u ->
  User.isLocked u = true ->
  User.lastLoginAttempt u = Some last ->
  tLock - last < UserModel.lockoutDuration ->
  AuthController.login tLock tTrack e password st = (AccountLocked, st)
  /\ status AccountLocked = 423.
Proof.
  intros Hf Hl _ _. split; [|done]. by eapply login_isLocked.
Qed.

Lemma passwordValid_recordAttempt now success password u :
  passwordValid password (UserModel.recordAttempt now success u)
  = passwordValid password u.
Proof.
  unfold UserModel.recordAttempt, passwordValid.
  destruct success; simpl; [done|]. by destruct (3 <=? _).
Qed.

Lemma passwordValid_lockCheck now password u :
  passwordValid password (snd (lockCheck now u)) = passwordValid password u.
Proof.
  unfold lockCheck. destruct (User.isLocked u); [done|].
  destruct (User.lastLoginAttempt u); [|done].
  destruct (_ && _); [done|]. by destruct (_ <=? _).
Qed.

(** A failed attempt on a record that is not locked, with [n] earlier
    failures that are either within the lockout window or none at all. *)
Lemma loginOutcome_failure tLock tTrack password u :
  User.isLocked u = false ->
  User.loginAttempts u < 3 ->
  (User.loginAttempts u = 0
   \/ exists last, User.lastLoginAttempt u = Some last
                   /\ tLock - last < UserModel.lockoutDuration) ->
  passwordValid password u = false ->
  exists u',
    loginOutcome tLock tTrack password u
    = (failureResponse u', u', compareLog password u)
    /\ User.loginAttempts u' = User.loginAttempts u + 1
    /\ User.lastLoginAttempt u' = Some tTrack
    /\ User.isLocked u' = (3 <=? User.loginAttempts u + 1)
    /\ User.password u' = User.password u
    /\ User.email u' = User.email u.
Proof.
  intros Hl Hn Hw Hp.
  assert (Hc : lockCheck tLock u = (false, u)).
  { unfold lockCheck. rewrite Hl.
    destruct (User.lastLoginAttempt u) as [last|] eqn:Hlast; [|done].
    replace (3 <=? User.loginAttempts u) with false by (symmetry; apply Z.leb_gt; lia).
    simpl. destruct (Z.leb_spec UserModel.lockoutDuration (tLock - last)); [|done].
    destruct Hw as [H0|(l' & [= <-] & Hlt)]; [|lia].
    unfold UserModel.unlock. destruct u; simpl in *. by subst. }
  exists (UserModel.recordAttempt tTrack false u).
  unfold loginOutcome. rewrite Hc, Hp.
  split; [done|].
  unfold UserModel.recordAttempt. simpl.
  destruct (3 <=? User.loginAttempts u + 1); simpl; done.
Qed.

Lemma passwordValid_ext password u u' :
  User.password u' = User.password u ->
  passwordValid password u' = passwordValid password u.
Proof. unfold passwordValid. by intros ->. Qed.

(** One failed attempt through [login], in terms of the states. *)
Lemma login_failure_run tLock tTrack e password st u :
  find (byEmail e) (users st) = Some u ->
  User.isLocked u = false ->
  User.loginAttempts u < 3 ->
  (User.loginAttempts u = 0
   \/ exists last, User.lastLoginAttempt u = Some last
                   /\ tLock - last < UserModel.lockoutDuration) ->
  passwordValid password u = false ->
  exists u',
    result (AuthController.login tLock tTrack e password) st = failureResponse u'
    /\ find (byEmail e) (users (run (AuthController.login tLock tTrack e password) st))
       = Some u'
    /\ User.loginAttempts u' = User.loginAttempts u + 1
    /\ User.lastLoginAttempt u' = Some tTrack
    /\ User.isLocked u' = (3 <=? User.loginAttempts u + 1)
    /\ User.password u' = User.password u
    /\ User.email u' = User.email u.
Proof.
  intros Hf Hl Hn Hw Hp.
  destruct (found_index _ _ _ Hf) as (i & Hi & Hu).
  destruct (loginOutcome_failure tLock tTrack password u Hl Hn Hw Hp)
    as (u' & Ho & Hrest).
  destruct (login_found_run tLock tTrack e password st i u Hi Hu)
    as (Hr & _ & _ & Hf').
  rewrite Ho in Hr, Hf'. simpl in *. eauto.
Qed.

(** C2: from a record with no failed attempt, three failed logins, each
    within the lockout window of the one before, are answered
    [AuthenticationFailed] with 2 attempts remaining, [AuthenticationFailed]
    with 1 remaining, and [AccountLocked]; every later attempt is answered
    [AccountLocked] whatever the password, and leaves the state as it is. *)
Theorem three_failures_then_locked e st u pw1 pw2 pw3 t1 t1' t2 t2' t3 t3' :
  find (byEmail e) (users st) = Some u ->
  User.loginAttempts u = 0 ->
  User.isLocked u = false ->
  passwordValid pw1 u = false ->
  passwordValid pw2 u = false ->
  passwordValid pw3 u = false ->
  t2 - t1' < UserModel.lockoutDuration ->
  t3 - t2' < UserModel.lockoutDuration ->
  let st1 := run (AuthController.login t1 t1' e pw1) st in
  let st2 := run (AuthController.login t2 t2' e pw2) st1 in
  let st3 := run (AuthController.login t3 t3' e pw3) st2 in
  result (AuthController.login t1 t1' e pw1) st = AuthenticationFailed (Some 2)
  /\ result (AuthController.login t2 t2' e pw2) st1 = AuthenticationFailed (Some 1)
  /\ result (AuthController.login t3 t3' e pw3) st2 = AccountLocked
  /\ forall t4 t4' pw4,
       t4 - t3' < UserModel.lockoutDuration ->
       AuthController.login t4 t4' e pw4 st3 = (AccountLocked, st3).
Proof.
  intros Hf H0 Hl Hp1 Hp2 Hp3 Hw2 Hw3 st1 st2 st3.
  destruct (login_failure_run t1 t1' e pw1 st u Hf Hl) as
    (u1 & Hr1 & Hf1 & Hn1 & Hlast1 & Hl1 & Hpw1 & _); [lia|by left|done|].
  fold st1 in Hf1. rewrite H0 in Hn1, Hl1. simpl in Hn1, Hl1.
  destruct (login_failure_run t2 t2' e pw2 st1 u1 Hf1 Hl1) as
    (u2 & Hr2 & Hf2 & Hn2 & Hlast2 & Hl2 & Hpw2 & _);
    [lia|right; eauto| by rewrite (passwordValid_ext _ _ _ Hpw1) |].
  fold st2 in Hf2. rewrite Hn1 in Hn2, Hl2. simpl in Hn2, Hl2.
  destruct (login_failure_run t3 t3' e pw3 st2 u2 Hf2 Hl2) as
    (u3 & Hr3 & Hf3 & Hn3 & Hlast3 & Hl3 & Hpw3 & _);
    [lia|right; eauto| |].
  { rewrite (passwordValid_ext _ _ _ Hpw2). by rewrite (passwordValid_ext _ _ _ Hpw1). }
  fold st3 in Hf3. rewrite Hn2 in Hn3, Hl3. simpl in Hn3, Hl3.
  split; [rewrite Hr1; unfold failureResponse; by rewrite Hn1|].
  split; [rewrite Hr2; unfold failureResponse; by rewrite Hn2|].
  split; [rewrite Hr3; unfold failureResponse; by rewrite Hn3|].
  intros t4 t4' pw4 _. by eapply login_isLocked.
Qed.

(** C5: a login with an email that has no record appends a temporary
    record for that email, with a null password and one failed attempt, and
    answers [AuthenticationFailed] without a count; [bcrypt.compare] is not
    called. Two more attempts within the lockout window are counted on that
    record: the second is answered with 1 attempt remaining, the third
    with [AccountLocked], and the record is then locked. *)
Theorem login_unknown_email tLock tTrack e password st :
  find (byEmail e) (users st) = None ->
  let ph := placeholder st tTrack e in
  let st1 := run (AuthController.login tLock tTrack e password) st in
  AuthController.login tLock tTrack e password st
  = (AuthenticationFailed None,
     mkState (users st ++ [ph]) (nextId st + 1) (bcryptCalls st))
  /\ User.email ph = e
  /\ User.password ph = JNull
  /\ User.loginAttempts ph = 1
  /\ User.isLocked ph = false
  /\ find (byEmail e) (users st1) = Some ph
  /\ forall t2 t2' t3 t3' pw2 pw3,
       t2 - tTrack < UserModel.lockoutDuration ->
       t3 - t2' < UserModel.lockoutDuration ->
       let st2 := run (AuthController.login t2 t2' e pw2) st1 in
       let st3 := run (AuthController.login t3 t3' e pw3) st2 in
       result (AuthController.login t2 t2' e pw2) st1 = AuthenticationFailed (Some 1)
       /\ result (AuthController.login t3 t3' e pw3) st2 = AccountLocked
       /\ exists ph3, find (byEmail e) (users st3) = Some ph3
                      /\ User.loginAttempts ph3 = 3
                      /\ User.isLocked ph3 = true
                      /\ User.password ph3 = JNull.
Proof.
  intros Hn ph st1.
  assert (Hlogin := login_absent tLock tTrack e password st Hn). fold ph in Hlogin.
  assert (Hph : byEmail e ph = true).
  { unfold byEmail, strict_eq. simpl. by apply bool_decide_eq_true. }
  assert (Hf1 : find (byEmail e) (users st1) = Some ph).
  { unfold st1, run. rewrite Hlogin. simpl.
    eapply findIndex_find.
    - apply findIndex_app_None; [by apply find_None_findIndex|done].
    - by rewrite lookup_app_r, Nat.sub_diag. }
  split; [exact Hlogin|]. do 5 (split; [done|]).
  intros t2 t2' t3 t3' pw2 pw3 Hw2 Hw3 st2 st3.
  destruct (login_failure_run t2 t2' e pw2 st1 ph Hf1) as
    (u2 & Hr2 & Hf2 & Hn2 & Hlast2 & Hl2 & Hpw2 & _);
    [done|simpl; lia|right; simpl; eauto|done|].
  fold st2 in Hf2. simpl in Hn2, Hl2.
  destruct (login_failure_run t3 t3' e pw3 st2 u2 Hf2 Hl2) as
    (u3 & Hr3 & Hf3 & Hn3 & Hlast3 & Hl3 & Hpw3 & _);
    [lia|right; eauto|by rewrite (passwordValid_ext _ _ _ Hpw2)|].
  fold st3 in Hf3. rewrite Hn2 in Hn3, Hl3. simpl in Hn3, Hl3.
  repeat split.
  - rewrite Hr2. unfold failureResponse. by rewrite Hn2.
  - rewrite Hr3. unfold failureResponse. by rewrite Hn3.
  - exists u3. repeat split; try done. by rewrite Hpw3, Hpw2.
Qed.

(** C9: a login on a record whose password is null never calls
    [bcrypt.compare] and is never answered [LoginSuccessful]: the answer is
    [AccountLocked] or [AuthenticationFailed] with a count. *)
Theorem login_null_password tLock tTrack e password st u :
  find (byEmail e) (users st) = Some u ->
  User.password u = JNull ->
  let r := result (AuthController.login tLock tTrack e password) st in
  let st' := run (AuthController.login tLock tTrack e password) st in
  (r = AccountLocked \/ exists n, r = AuthenticationFailed (Some n))
  /\ (forall v token, r <> LoginSuccessful v token)
  /\ bcryptCalls st' = bcryptCalls st.
Proof.
  intros Hf Hp r st'.
  destruct (found_index _ _ _ Hf) as (i & Hi & Hu).
  unfold r, st', result, run. rewrite (login_found _ _ _ _ _ _ _ Hi Hu).
  unfold loginOutcome.
  assert (Hp1 : User.password (snd (lockCheck tLock u)) = JNull).
  { unfold lockCheck. destruct (User.isLocked u); [done|].
    destruct (User.lastLoginAttempt u); [|done].
    destruct (_ && _); [done|]. by destruct (_ <=? _). }
  destruct (lockCheck tLock u) as [[] u1]; simpl in *.
  { rewrite app_nil_r. split; [by left|]. split; [congruence|done]. }
  unfold passwordValid, compareLog. rewrite Hp1. simpl. rewrite app_nil_r.
  unfold failureResponse.
  destruct (0 <? _); (split; [eauto|split; [congruence|done]]).
Qed.

(** ** Password reset *)

(** The check of the source, [passwordResetToken !== token] and
    [new Date() > new Date(passwordResetExpires)], is the negation of the
    validity of the specification. *)
Lemma tokenValid_found now e token st u :
  find (byEmail e) (users st) = Some u ->
  tokenValid now e token st
  = negb (negb (strict_eq (User.passwordResetToken u) token)
          || (dateOf (User.passwordResetExpires u) <? now)).
Proof.
  intros Hf. unfold tokenValid. rewrite Hf.
  rewrite negb_orb, negb_involutive. by rewrite <- Z.leb_antisym.
Qed.

Lemma resetPassword_invalid now e token newPassword st :
  tokenValid now e token st = false ->
  UserModel.resetPassword now e token newPassword st = (None, st).
Proof.
  intros Hv. unfold UserModel.resetPassword, bind, get.
  destruct (findIndex (byEmail e) (users st)) as [i|] eqn:Hi; [|done].
  destruct (users st !! i) as [u|] eqn:Hu; [|done].
  rewrite (tokenValid_found _ _ _ _ _ (findIndex_find _ _ _ _ Hi Hu)) in Hv.
  apply negb_false_iff, orb_true_iff in Hv as [Hv|Hv]; rewrite Hv; [done|].
  by destruct (negb _).
Qed.

Lemma verifyPasswordResetToken_invalid now e token st :
  tokenValid now e token st = false ->
  UserModel.verifyPasswordResetToken now e token st = (None, st).
Proof.
  intros Hv. unfold UserModel.verifyPasswordResetToken, bind, get.
  destruct (find (byEmail e) (users st)) as [u|] eqn:Hf; [|done].
  rewrite (tokenValid_found _ _ _ _ _ Hf) in Hv.
  apply negb_false_iff, orb_true_iff in Hv as [Hv|Hv]; rewrite Hv; [done|].
  by destruct (negb _).
Qed.

Lemma resetPassword_valid now e token newPassword st :
  tokenValid now e token st = true ->
  exists i u,
    findIndex (byEmail e) (users st) = Some i
    /\ users st !! i = Some u
    /\ UserModel.resetPassword now e token newPassword st
       = (Some (UserModel.applyReset newPassword u),
          set_users (<[i := UserModel.applyReset newPassword u]> (users st)) st).
Proof.
  intros Hv. unfold tokenValid in Hv.
  destruct (find (byEmail e) (users st)) as [u|] eqn:Hf; [|done].
  destruct (found_index _ _ _ Hf) as (i & Hi & Hu).
  exists i, u. split; [done|]. split; [done|].
  unfold UserModel.resetPassword, bind, get. rewrite Hi, Hu.
  apply andb_true_iff in Hv as [Ht Hx]. rewrite Ht. simpl.
  rewrite Z.ltb_antisym, Hx. done.
Qed.

(** Once the stored token is cleared no token is valid, whatever is
    presented, at any time after the epoch. *)
Lemma tokenValid_cleared now e token st u :
  0 < now ->
  find (byEmail e) (users st) = Some u ->
  User.passwordResetToken u = JNull ->
  User.passwordResetExpires u = None ->
  tokenValid now e token st = false.
Proof.
  intros Hnow Hf Ht Hx. unfold tokenValid. rewrite Hf, Ht, Hx. simpl.
  replace (now <=? 0) with false by (symmetry; apply Z.leb_gt; lia).
  apply andb_false_r.
Qed.

(** C3: [resetPassword] with a valid token (the account exists, the stored
    token is exactly the one presented, and the time is not after the
    expiry) stores the new password, clears the token and its expiry, sets
    [loginAttempts] to 0 and [isLocked] to false whatever they were, and
    changes nothing else; with an invalid token it answers null and leaves
    the state as it is. After a successful reset the same token is invalid:
    [UserModel.resetPassword] answers null and the handler answers
    [InvalidOrExpiredToken], both without a change of state. *)
Theorem resetPassword_spec now now' tVerify tReset salt e token newPassword newPassword' pw' st :
  0 < now' ->
  0 < tVerify ->
  if tokenValid now e token st then
    exists i u,
      findIndex (byEmail e) (users st) = Some i
      /\ users st !! i = Some u
      /\ let u' := UserModel.applyReset newPassword u in
         let st' := set_users (<[i := u']> (users st)) st in
         UserModel.resetPassword now e token newPassword st = (Some u', st')
         /\ u' = User.mk (User.id u) (User.email u) newPassword (User.name u)
                    (User.createdAt u) 0 (User.lastLoginAttempt u) false JNull None
         /\ UserModel.resetPassword now' e token newPassword' st' = (None, st')
         /\ AuthController.resetPassword tVerify tReset salt e token pw' st'
            = (InvalidOrExpiredToken, st')
  else
    UserModel.resetPassword now e token newPassword st = (None, st)
    /\ AuthController.resetPassword now tReset salt e token pw' st
       = (InvalidOrExpiredToken, st).
Proof.
  intros Hnow' Hver.
  destruct (tokenValid now e token st) eqn:Hv.
  - destruct (resetPassword_valid now e token newPassword st Hv)
      as (i & u & Hi & Hu & Hr).
    exists i, u. split; [done|]. split; [done|]. intros u' st'.
    split; [done|]. split; [done|].
    assert (He : byEmail e u' = true).
    { apply findIndex_Some in Hi as (v & Hv' & Hp).
      assert (v = u) as -> by congruence. exact Hp. }
    assert (Hf' : find (byEmail e) (users st') = Some u').
    { eapply findIndex_find; simpl.
      - by apply findIndex_insert.
      - apply list_lookup_insert_eq. by eapply findIndex_lt. }
    split.
    + apply resetPassword_invalid. by eapply tokenValid_cleared.
    + unfold AuthController.resetPassword, bind.
      rewrite verifyPasswordResetToken_invalid; [done|].
      by eapply tokenValid_cleared.
  - split; [by apply resetPassword_invalid|].
    unfold AuthController.resetPassword, bind.
    by rewrite verifyPasswordResetToken_invalid.
Qed.

(** ** Registration and [create] *)

Lemma create_eq now e password name st :
  UserModel.create now e password name st
  = (User.new (nextId st) e password name now,
     mkState (users st ++ [User.new (nextId st) e password name now])
       (nextId st + 1) (bcryptCalls st)).
Proof. done. Qed.

(** C7, as the code has it: [UserModel.create] never fails, it appends a
    new record and returns it whether or not the email is stored already;
    the conflict is raised by [register], which looks the email up first:
    with the email present it answers [UserAlreadyExists] (status 409) and
    adds no record, otherwise it creates the account. *)
Theorem register_conflict now salt e password name digest st :
  UserModel.create now e digest name st
  = (User.new (nextId st) e digest name now,
     mkState (users st ++ [User.new (nextId st) e digest name now])
       (nextId st + 1) (bcryptCalls st))
  /\ match find (byEmail e) (users st) with
     | Some _ =>
       AuthController.register now salt e password name st = (UserAlreadyExists, st)
       /\ status UserAlreadyExists = 409
     | None =>
       let user := User.new (nextId st) e (JStr (bcrypt_hash salt password)) name now in
       AuthController.register now salt e password name st
       = (UserRegistered (withoutPassword user) (jwt_sign (User.id user) e),
          mkState (users st ++ [user]) (nextId st + 1) (bcryptCalls st))
     end.
Proof.
  split; [done|].
  unfold AuthController.register, UserModel.findByEmail, bind, get, ret. simpl.
  by destruct (find (byEmail e) (users st)).
Qed.

(** ** Profile update *)

(** [updateProfile] with a body whose email is missing (or empty) writes
    both keys of [{ name, email }] into the record of [userId]. *)
Lemma updateProfile_without_email userId name email st i u :
  truthy email = false ->
  AuthController.badNameLength name = false ->
  findIndex (byId userId) (users st) = Some i ->
  users st !! i = Some u ->
  AuthController.updateProfile userId name email st
  = (ProfileUpdated (withoutPassword (User.set_email email (User.set_name name u))),
     set_users (<[i := User.set_email email (User.set_name name u)]> (users st)) st).
Proof.
  intros He Hn Hi Hu. unfold AuthController.updateProfile.
  assert (Hb : AuthController.badEmailFormat email = false).
  { unfold AuthController.badEmailFormat. destruct email; try done. by rewrite He. }
  rewrite Hb, Hn, He. unfold bind at 1. simpl.
  unfold UserModel.update, bind, get. by rewrite Hi, Hu.
Qed.

(** ** Invariants of the stored records *)

Lemma keeps_ret {A : Type} (I : State -> Prop) (a : A) : keeps I (ret a).
Proof. by intros st. Qed.

Lemma keeps_bind {A B : Type} (I : State -> Prop) (m : M A) (k : A -> M B) :
  keeps I m -> (forall a, keeps I (k a)) -> keeps I (bind m k).
Proof.
  intros Hm Hk st HI. unfold bind. specialize (Hm st HI).
  destruct (m st) as [a st']. by apply Hk.
Qed.

Section EveryUser.
Variable P : User.t -> Prop.

(** [P] survives the mutations that do not count attempts. *)
Hypothesis P_new : forall id e p n c, P (User.new id e p n c).
Hypothesis P_spread : forall u d, P u -> P (spread u d).
Hypothesis P_unlock : forall u, P u -> P (UserModel.unlock u).
Hypothesis P_token : forall u t x,
  P u -> P (User.set_passwordResetExpires x (User.set_passwordResetToken t u)).
Hypothesis P_reset : forall u p, P u -> P (UserModel.applyReset p u).

Lemma everyUser_insert st i u v :
  everyUser P st -> users st !! i = Some u -> (P u -> P v) ->
  everyUser P (set_users (<[i := v]> (users st)) st).
Proof.
  unfold everyUser. intros HI Hu Hv. simpl.
  apply Forall_insert; [done|]. apply Hv. by eapply Forall_lookup_1.
Qed.

Lemma keeps_create now e p n : keeps (everyUser P) (UserModel.create now e p n).
Proof.
  intros st HI. unfold everyUser in *. simpl.
  apply Forall_app. split; [done|]. by constructor.
Qed.

Lemma keeps_findByEmail e : keeps (everyUser P) (UserModel.findByEmail e).
Proof. by intros st. Qed.

Lemma keeps_findById id : keeps (everyUser P) (UserModel.findById id).
Proof. by intros st. Qed.

Lemma keeps_update id d : keeps (everyUser P) (UserModel.update id d).
Proof.
  intros st HI. unfold UserModel.update, bind, get.
  destruct (findIndex _ _) as [i|]; [|done].
  destruct (users st !! i) as [u|] eqn:Hu; [|done]. simpl.
  eapply everyUser_insert; eauto.
Qed.

Lemma keeps_delete id : keeps (everyUser P) (UserModel.delete id).
Proof.
  intros st HI. unfold UserModel.delete, bind, get.
  destruct (findIndex _ _) as [i|]; [|done]. unfold everyUser in *. simpl.
  apply Forall_app. split; [by apply Forall_take|by apply Forall_drop].
Qed.

Lemma keeps_isAccountLocked now e :
  keeps (everyUser P) (UserModel.isAccountLocked now e).
Proof.
  intros st HI.
  destruct (find (byEmail e) (users st)) as [u|] eqn:Hf.
  - destruct (found_index _ _ _ Hf) as (i & Hi & Hu).
    rewrite (isAccountLocked_found _ _ _ _ _ Hi Hu). simpl.
    apply (everyUser_insert st i u); [done|done|]. intros Hp. unfold lockCheck.
    destruct (User.isLocked u); [done|].
    destruct (User.lastLoginAttempt u); [|done].
    destruct (_ && _); [done|]. destruct (_ <=? _); simpl; auto.
  - by rewrite isAccountLocked_absent.
Qed.

Lemma keeps_generatePasswordResetToken now rand e :
  keeps (everyUser P) (UserModel.generatePasswordResetToken now rand e).
Proof.
  intros st HI. unfold UserModel.generatePasswordResetToken, bind, get.
  destruct (findIndex _ _) as [i|]; [|done].
  destruct (users st !! i) as [u|] eqn:Hu; [|done]. simpl.
  eapply everyUser_insert; eauto.
Qed.

Lemma keeps_verifyPasswordResetToken now e token :
  keeps (everyUser P) (UserModel.verifyPasswordResetToken now e token).
Proof.
  intros st HI. unfold UserModel.verifyPasswordResetToken, bind, get.
  destruct (find _ _) as [u|]; [|done].
  destruct (negb _); [done|]. by destruct (_ <? _).
Qed.

Lemma keeps_resetPassword now e token p :
  keeps (everyUser P) (UserModel.resetPassword now e token p).
Proof.
  intros st HI. unfold UserModel.resetPassword, bind, get.
  destruct (findIndex _ _) as [i|]; [|done].
  destruct (users st !! i) as [u|] eqn:Hu; [|done].
  destruct (negb _); [done|]. destruct (_ <? _); [done|]. simpl.
  eapply everyUser_insert; eauto.
Qed.

Lemma keeps_clear : keeps (everyUser P) UserModel.clear.
Proof. intros st HI. unfold everyUser. simpl. constructor. Qed.

Lemma keeps_bcryptCompare plain digest :
  keeps (everyUser P) (AuthController.bcryptCompare plain digest).
Proof. by intros st. Qed.

Lemma keeps_verifyPassword password u :
  keeps (everyUser P) (AuthController.verifyPassword password u).
Proof.
  unfold AuthController.verifyPassword.
  destruct (User.password u); try apply keeps_ret.
  destruct (truthy _); [apply keeps_bcryptCompare|apply keeps_ret].
Qed.

(** [P] survives the counting of an attempt. *)
Lemma keeps_trackLoginAttempt now e success :
  (forall t s u, P u -> P (UserModel.recordAttempt t s u)) ->
  keeps (everyUser P) (UserModel.trackLoginAttempt now e success).
Proof.
  intros P_record st HI. unfold UserModel.trackLoginAttempt, bind, get.
  destruct (findIndex _ _) as [i|].
  - destruct (users st !! i) as [u|] eqn:Hu; [|done].
    apply (everyUser_insert st i u); [done|done|]. apply P_record.
  - destruct success; [done|]. unfold everyUser in *.
    cbn -[UserModel.recordAttempt User.new].
    apply Forall_app. split; [done|]. constructor; [|done].
    apply P_record, P_new.
Qed.

End EveryUser.

Create HintDb keeps.

#[local] Hint Resolve keeps_ret keeps_create keeps_findByEmail keeps_findById
  keeps_update keeps_delete keeps_isAccountLocked
  keeps_generatePasswordResetToken keeps_verifyPasswordResetToken
  keeps_resetPassword keeps_clear keeps_bcryptCompare keeps_verifyPassword
  : keeps.

(** One step through a handler: split a bind, or take the cases of the
    value the handler branches on. *)
Ltac keeps_step :=
  lazymatch goal with
  | |- keeps _ (bind _ _) => apply keeps_bind; [|intros ?]
  | |- keeps _ (ret _) => apply keeps_ret
  | |- keeps _ (match ?x with _ => _ end) => destruct x
  end.

Section Handlers.
Variable P : User.t -> Prop.
Hypothesis P_new : forall id e p n c, P (User.new id e p n c).
Hypothesis P_spread : forall u d, P u -> P (spread u d).
Hypothesis P_unlock : forall u, P u -> P (UserModel.unlock u).
Hypothesis P_token : forall u t x,
  P u -> P (User.set_passwordResetExpires x (User.set_passwordResetToken t u)).
Hypothesis P_reset : forall u p, P u -> P (UserModel.applyReset p u).

Lemma keeps_register now salt e password name :
  keeps (everyUser P) (AuthController.register now salt e password name).
Proof. unfold AuthController.register. repeat keeps_step; eauto with keeps. Qed.

Lemma keeps_requestPasswordReset now rand e :
  keeps (everyUser P) (AuthController.requestPasswordReset now rand e).
Proof.
  unfold AuthController.requestPasswordReset. repeat keeps_step; eauto with keeps.
Qed.

Lemma keeps_handler_resetPassword tVerify tReset salt e token p :
  keeps (everyUser P) (AuthController.resetPassword tVerify tReset salt e token p).
Proof.
  unfold AuthController.resetPassword. repeat keeps_step; eauto with keeps.
Qed.

Lemma keeps_getProfile id : keeps (everyUser P) (AuthController.getProfile id).
Proof. unfold AuthController.getProfile. repeat keeps_step; eauto with keeps. Qed.

Lemma keeps_updateProfile id name e :
  keeps (everyUser P) (AuthController.updateProfile id name e).
Proof.
  unfold AuthController.updateProfile. repeat keeps_step; eauto with keeps.
Qed.

Lemma keeps_changePassword id salt current new :
  keeps (everyUser P) (AuthController.changePassword id salt current new).
Proof.
  unfold AuthController.changePassword. repeat keeps_step; eauto with keeps.
Qed.

(** [login], for a property that survives the counting of attempts. *)
Lemma keeps_login tLock tTrack e password :
  (forall t s u, P u -> P (UserModel.recordAttempt t s u)) ->
  keeps (everyUser P) (AuthController.login tLock tTrack e password).
Proof.
  intros P_record. unfold AuthController.login.
  repeat keeps_step; eauto using keeps_trackLoginAttempt with keeps.
Qed.

End Handlers.

(** *** [locked] implies [failedAttemptCount >= 3] *)

Lemma lockedAtThreshold_recordAttempt t s u :
  lockedAtThreshold u -> lockedAtThreshold (UserModel.recordAttempt t s u).
Proof.
  unfold lockedAtThreshold, UserModel.recordAttempt.
  destruct s; simpl; [done|].
  destruct (Z.leb_spec 3 (User.loginAttempts u + 1)) as [Hge|Hlt]; simpl; [done|].
  intros Hu Hl. specialize (Hu Hl). lia.
Qed.

Lemma step_lockedAtThreshold st st' :
  step st st' -> everyUser lockedAtThreshold st -> everyUser lockedAtThreshold st'.
Proof.
  assert (Hnew : forall id e p n c, lockedAtThreshold (User.new id e p n c)) by done.
  assert (Hspread : forall u d, lockedAtThreshold u -> lockedAtThreshold (spread u d)).
  { intros u [[?|] [?|] [?|]]; done. }
  assert (Hunlock : forall u, lockedAtThreshold u -> lockedAtThreshold (UserModel.unlock u))
    by done.
  assert (Htoken : forall u t x, lockedAtThreshold u ->
    lockedAtThreshold (User.set_passwordResetExpires x (User.set_passwordResetToken t u)))
    by done.
  assert (Hreset : forall u p, lockedAtThreshold u ->
    lockedAtThreshold (UserModel.applyReset p u)) by done.
  pose proof lockedAtThreshold_recordAttempt as Hrecord.
  intros Hstep. destruct Hstep as
    [ | | | | | | | | | r st ]; unfold run.
  - by apply keeps_create.
  - by apply keeps_update.
  - by apply keeps_delete.
  - by apply keeps_trackLoginAttempt.
  - by apply keeps_isAccountLocked.
  - by apply keeps_generatePasswordResetToken.
  - by apply keeps_verifyPasswordResetToken.
  - by apply keeps_resetPassword.
  - by apply keeps_clear.
  - destruct r; simpl.
    + by apply keeps_register.
    + by apply keeps_login.
    + by apply keeps_requestPasswordReset.
    + by apply keeps_handler_resetPassword.
    + by apply keeps_getProfile.
    + by apply keeps_updateProfile.
    + by apply keeps_changePassword.
Qed.

(** C8: in every state reached from the empty store by the operations of
    the store and the handlers of the API (among them login, attempt
    tracking, the lock check with its unlock, the request of a reset and
    its completion), a record with [isLocked] set has at least 3 failed
    attempts. *)
Theorem locked_implies_threshold st u :
  stepReachable st ->
  u ∈ users st ->
  User.isLocked u = true ->
  3 <= User.loginAttempts u.
Proof.
  intros Hreach.
  assert (HI : everyUser lockedAtThreshold st).
  { unfold stepReachable in Hreach.
    assert (Hinit : everyUser lockedAtThreshold initial) by constructor.
    revert Hinit. induction Hreach as [|x y z Hxy _ IH]; [done|].
    intros Hx. apply IH. by eapply step_lockedAtThreshold. }
  intros Hu. unfold everyUser in HI. rewrite Forall_forall in HI. by apply HI.
Qed.

(** *** The counter never exceeds the threshold *)

Lemma withinThreshold_loginOutcome tLock tTrack password u :
  withinThreshold u ->
  withinThreshold (snd (fst (loginOutcome tLock tTrack password u))).
Proof.
  unfold withinThreshold, loginOutcome, lockCheck. intros [Hle Hlock].
  destruct (User.isLocked u) eqn:Hl; simpl; [done|].
  assert (Hlt : User.loginAttempts u + 1 <= 3).
  { destruct (Z.eq_dec (User.loginAttempts u) 3) as [H3|H3]; [|lia].
    specialize (Hlock H3). congruence. }
  assert (Hrec : forall valid v,
    User.loginAttempts v + 1 <= 3 ->
    User.loginAttempts (UserModel.recordAttempt tTrack valid v) <= 3
    /\ (User.loginAttempts (UserModel.recordAttempt tTrack valid v) = 3 ->
        User.isLocked (UserModel.recordAttempt tTrack valid v) = true)).
  { intros valid v Hv. unfold UserModel.recordAttempt.
    destruct valid; simpl; [lia|].
    destruct (Z.leb_spec 3 (User.loginAttempts v + 1)); simpl; [done|lia]. }
  destruct (User.lastLoginAttempt u) as [last|]; simpl.
  - destruct (_ && _); simpl; [split; [done|intros; lia]|].
    destruct (_ <=? _); simpl; apply Hrec; simpl; lia.
  - by apply Hrec.
Qed.

Lemma keeps_login_withinThreshold tLock tTrack e password :
  keeps (everyUser withinThreshold) (AuthController.login tLock tTrack e password).
Proof.
  intros st HI.
  destruct (find (byEmail e) (users st)) as [u|] eqn:Hf.
  - destruct (found_index _ _ _ Hf) as (i & Hi & Hu).
    rewrite (login_found _ _ _ _ _ _ _ Hi Hu).
    pose proof (withinThreshold_loginOutcome tLock tTrack password u) as Ho.
    destruct (loginOutcome tLock tTrack password u) as [[r v] calls]; simpl in *.
    unfold everyUser in *. simpl. apply Forall_insert; [done|].
    apply Ho. by eapply Forall_lookup_1.
  - rewrite (login_absent _ _ _ _ _ Hf). unfold everyUser in *. simpl.
    apply Forall_app. split; [done|]. constructor; [|done].
    unfold withinThreshold. simpl. lia.
Qed.

Lemma handle_withinThreshold r :
  keeps (everyUser withinThreshold) (AuthController.handle r).
Proof.
  assert (Hnew : forall id e p n c, withinThreshold (User.new id e p n c)).
  { intros. unfold withinThreshold. simpl. lia. }
  assert (Hspread : forall u d, withinThreshold u -> withinThreshold (spread u d)).
  { intros u [[?|] [?|] [?|]]; done. }
  assert (Hunlock : forall u, withinThreshold u -> withinThreshold (UserModel.unlock u)).
  { intros. unfold withinThreshold. simpl. lia. }
  assert (Htoken : forall u t x, withinThreshold u ->
    withinThreshold (User.set_passwordResetExpires x (User.set_passwordResetToken t u)))
    by done.
  assert (Hreset : forall u p, withinThreshold u ->
    withinThreshold (UserModel.applyReset p u)).
  { intros. unfold withinThreshold. simpl. lia. }
  destruct r; simpl.
  - by apply keeps_register.
  - apply keeps_login_withinThreshold.
  - by apply keeps_requestPasswordReset.
  - by apply keeps_handler_resetPassword.
  - by apply keeps_getProfile.
  - by apply keeps_updateProfile.
  - by apply keeps_changePassword.
Qed.

(** C10: in every state the API reaches from the empty store, one request
    after the other, every record has at most 3 failed attempts. *)
Theorem attempts_at_most_threshold st u :
  AuthController.reachable st ->
  u ∈ users st ->
  User.loginAttempts u <= 3.
Proof.
  intros Hreach.
  assert (HI : everyUser withinThreshold st).
  { induction Hreach as [|st r _ IH]; [constructor|].
    by apply handle_withinThreshold. }
  intros Hu. unfold everyUser in HI. rewrite Forall_forall in HI.
  by destruct (HI u Hu).
Qed.

(** ** Further properties *)

(** *** Every handler keeps what the methods of the store keep *)

Section HandlersKeep.
Variable I : State -> Prop.
Hypothesis I_create : forall now e p n, keeps I (UserModel.create now e p n).
Hypothesis I_update : forall id d, keeps I (UserModel.update id d).
Hypothesis I_track : forall now e s, keeps I (UserModel.trackLoginAttempt now e s).
Hypothesis I_locked : forall now e, keeps I (UserModel.isAccountLocked now e).
Hypothesis I_generate :
  forall now rand e, keeps I (UserModel.generatePasswordResetToken now rand e).
Hypothesis I_reset : forall now e t p, keeps I (UserModel.resetPassword now e t p).
Hypothesis I_compare : forall p d, keeps I (AuthController.bcryptCompare p d).

Lemma keeps_read {A : Type} (f : State -> A) : keeps I (st <- get ;; ret (f st)).
Proof. by intros st. Qed.

Lemma keeps_verify now e token :
  keeps I (UserModel.verifyPasswordResetToken now e token).
Proof.
  intros st HI. unfold UserModel.verifyPasswordResetToken, bind, get.
  destruct (find _ _) as [u|]; [|done].
  destruct (negb _); [done|]. by destruct (_ <? _).
Qed.

Lemma keeps_handle r : keeps I (AuthController.handle r).
Proof.
  pose proof keeps_verify as Hv.
  assert (Hfe : forall e, keeps I (UserModel.findByEmail e)) by (by intros e st).
  assert (Hfi : forall id, keeps I (UserModel.findById id)) by (by intros id st).
  destruct r; simpl.
  - unfold AuthController.register. repeat keeps_step; auto.
  - unfold AuthController.login, AuthController.verifyPassword.
    repeat keeps_step; auto.
  - unfold AuthController.requestPasswordReset. repeat keeps_step; auto.
  - unfold AuthController.resetPassword. repeat keeps_step; auto.
  - unfold AuthController.getProfile. repeat keeps_step; auto.
  - unfold AuthController.updateProfile. repeat keeps_step; auto.
  - unfold AuthController.changePassword. repeat keeps_step; auto.
Qed.

End HandlersKeep.

(** *** Identifiers *)

Lemma keysOf_insert st i v :
  keysOf (set_users (<[i := v]> (users st)) st)
  = <[i := (User.id v, User.email v)]> (keysOf st).
Proof. unfold keysOf. simpl. by rewrite list_fmap_insert. Qed.

Lemma keysOf_lookup st i u :
  users st !! i = Some u -> keysOf st !! i = Some (User.id u, User.email u).
Proof. intros Hu. unfold keysOf. by rewrite list_lookup_fmap, Hu. Qed.

Lemma keysOf_lookup_eq st i u a e :
  users st !! i = Some u -> User.id u = a -> User.email u = e ->
  keysOf st !! i = Some (a, e).
Proof. intros Hu <- <-. by apply keysOf_lookup. Qed.

(** Writing back a record with the same [id] and [email] leaves the keys
    as they are. *)
Lemma keyed_insert st i u v :
  users st !! i = Some u ->
  User.id v = User.id u ->
  User.email v = User.email u ->
  keyed (set_users (<[i := v]> (users st)) st) = keyed st.
Proof.
  intros Hu Hid He. unfold keyed. rewrite keysOf_insert. simpl. f_equal.
  apply list_insert_id. rewrite Hid, He. by apply keysOf_lookup.
Qed.

Lemma idsFresh_insert ks n i a e e' :
  ks !! i = Some (a, e) -> idsFresh (ks, n) -> idsFresh (<[i := (a, e')]> ks, n).
Proof.
  intros Hi (Hn & Hall & Hnd). unfold idsFresh. cbn [fst snd] in *.
  split; [done|]. split.
  - apply Forall_insert; [done|]. simpl.
    by apply (Forall_lookup_1 _ _ _ _ Hall Hi).
  - rewrite list_fmap_insert. simpl. rewrite list_insert_id; [done|].
    by rewrite list_lookup_fmap, Hi.
Qed.

Lemma idsFresh_snoc ks n e :
  idsFresh (ks, n) -> idsFresh (ks ++ [(n, e)], n + 1).
Proof.
  intros (Hn & Hall & Hnd). unfold idsFresh. cbn [fst snd] in *.
  split; [lia|]. split.
  - apply Forall_app. split.
    + eapply Forall_impl; [exact Hall|]. simpl. intros p Hp. lia.
    + constructor; [simpl; lia|constructor].
  - rewrite fmap_app. apply NoDup_app. split; [done|]. split; [|apply NoDup_singleton].
    intros x Hx. simpl. rewrite list_elem_of_singleton. intros ->.
    apply list_elem_of_fmap in Hx as (p & Hp1 & Hp2).
    rewrite Forall_forall in Hall. specialize (Hall p Hp2). lia.
Qed.

Lemma idsFresh_delete ks n i : idsFresh (ks, n) -> idsFresh (base.delete i ks, n).
Proof.
  intros (Hn & Hall & Hnd). unfold idsFresh. cbn [fst snd] in *.
  split; [done|]. split.
  - by apply Forall_delete.
  - rewrite list_fmap_delete. eapply sublist_NoDup; [done|apply sublist_delete].
Qed.

Lemma spread_id u d : User.id (spread u d) = User.id u.
Proof. by destruct d as [[?|] [?|] [?|]]. Qed.

Lemma recordAttempt_keys now s u :
  User.id (UserModel.recordAttempt now s u) = User.id u
  /\ User.email (UserModel.recordAttempt now s u) = User.email u.
Proof.
  unfold UserModel.recordAttempt. destruct s; simpl; [done|].
  by destruct (3 <=? _).
Qed.

Lemma lockCheck_keys now u :
  User.id (snd (lockCheck now u)) = User.id u
  /\ User.email (snd (lockCheck now u)) = User.email u.
Proof.
  unfold lockCheck. destruct (User.isLocked u); [done|].
  destruct (User.lastLoginAttempt u); [|done].
  destruct (_ && _); [done|]. by destruct (_ <=? _).
Qed.

(** The methods that write a record back leave the keys as they are. *)
Lemma keyed_isAccountLocked now e st :
  keyed (snd (UserModel.isAccountLocked now e st)) = keyed st.
Proof.
  destruct (find (byEmail e) (users st)) as [u|] eqn:Hf.
  - destruct (found_index _ _ _ Hf) as (i & Hi & Hu).
    rewrite (isAccountLocked_found _ _ _ _ _ Hi Hu). simpl.
    destruct (lockCheck_keys now u). by eapply keyed_insert.
  - by rewrite isAccountLocked_absent.
Qed.

Lemma keyed_generatePasswordResetToken now rand e st :
  keyed (snd (UserModel.generatePasswordResetToken now rand e st)) = keyed st.
Proof.
  unfold UserModel.generatePasswordResetToken, bind, get.
  destruct (findIndex _ _) as [i|]; [|done].
  destruct (users st !! i) as [u|] eqn:Hu; [|done]. simpl.
  by eapply keyed_insert.
Qed.

Lemma keyed_resetPassword now e token p st :
  keyed (snd (UserModel.resetPassword now e token p st)) = keyed st.
Proof.
  unfold UserModel.resetPassword, bind, get.
  destruct (findIndex _ _) as [i|]; [|done].
  destruct (users st !! i) as [u|] eqn:Hu; [|done].
  destruct (negb _); [done|]. destruct (_ <? _); [done|]. simpl.
  by eapply keyed_insert.
Qed.

Lemma keyed_verifyPasswordResetToken now e token st :
  snd (UserModel.verifyPasswordResetToken now e token st) = st.
Proof.
  unfold UserModel.verifyPasswordResetToken, bind, get.
  destruct (find _ _) as [u|]; [|done].
  destruct (negb _); [done|]. by destruct (_ <? _).
Qed.

Lemma keyed_trackLoginAttempt_found now e s st u :
  find (byEmail e) (users st) = Some u ->
  keyed (snd (UserModel.trackLoginAttempt now e s st)) = keyed st.
Proof.
  intros Hf. destruct (found_index _ _ _ Hf) as (i & Hi & Hu).
  rewrite (trackLoginAttempt_found _ _ _ _ _ _ Hi Hu). simpl.
  destruct (recordAttempt_keys now s u). by eapply keyed_insert.
Qed.

Lemma step_idsFresh st st' :
  step st st' -> idsFresh (keyed st) -> idsFresh (keyed st').
Proof.
  assert (Hcreate : forall now e p n,
    keeps (fun s => idsFresh (keyed s)) (UserModel.create now e p n)).
  { intros now e p n s Hs. unfold keyed, keysOf. simpl. rewrite fmap_app.
    by apply idsFresh_snoc. }
  assert (Hupdate : forall id d,
    keeps (fun s => idsFresh (keyed s)) (UserModel.update id d)).
  { intros id d s Hs. unfold UserModel.update, bind, get.
    destruct (findIndex _ _) as [i|]; [|done].
    destruct (users s !! i) as [u|] eqn:Hu; [|done]. simpl.
    unfold keyed. rewrite keysOf_insert, spread_id. simpl.
    eapply idsFresh_insert; [by apply keysOf_lookup|done]. }
  assert (Htrack : forall now e s,
    keeps (fun s => idsFresh (keyed s)) (UserModel.trackLoginAttempt now e s)).
  { intros now e s st0 Hs.
    destruct (find (byEmail e) (users st0)) as [u|] eqn:Hf.
    - by rewrite (keyed_trackLoginAttempt_found _ _ _ _ _ Hf).
    - apply find_None_findIndex in Hf. destruct s.
      + unfold UserModel.trackLoginAttempt, bind, get. by rewrite Hf.
      + rewrite (trackLoginAttempt_absent _ _ _ Hf). unfold keyed, keysOf. simpl.
        rewrite fmap_app. by apply idsFresh_snoc. }
  assert (Hlocked : forall now e,
    keeps (fun s => idsFresh (keyed s)) (UserModel.isAccountLocked now e)).
  { intros now e s Hs. by rewrite keyed_isAccountLocked. }
  assert (Hgen : forall now rand e,
    keeps (fun s => idsFresh (keyed s)) (UserModel.generatePasswordResetToken now rand e)).
  { intros now rand e s Hs. by rewrite keyed_generatePasswordResetToken. }
  assert (Hreset : forall now e t p,
    keeps (fun s => idsFresh (keyed s)) (UserModel.resetPassword now e t p)).
  { intros now e t p s Hs. by rewrite keyed_resetPassword. }
  intros Hstep. destruct Hstep; unfold run; intros Hs.
  - by apply Hcreate.
  - by apply Hupdate.
  - unfold UserModel.delete, bind, get.
    destruct (findIndex _ _) as [i|]; [|done]. simpl.
    unfold keyed, keysOf. simpl. rewrite <- delete_take_drop, list_fmap_delete.
    by apply idsFresh_delete.
  - by apply Htrack.
  - by apply Hlocked.
  - by apply Hgen.
  - by rewrite keyed_verifyPasswordResetToken.
  - by apply Hreset.
  - unfold keyed, keysOf, idsFresh. simpl. split; [done|]. split; constructor.
  - apply keeps_handle; auto. by intros p d s.
Qed.

Lemma stepReachable_idsFresh st : stepReachable st -> idsFresh (keyed st).
Proof.
  unfold stepReachable. intros Hreach.
  assert (Hinit : idsFresh (keyed initial)).
  { unfold keyed, keysOf, idsFresh. simpl. split; [done|]. split; constructor. }
  revert Hinit. induction Hreach as [|x y z Hxy _ IH]; [done|].
  intros Hx. apply IH. by eapply step_idsFresh.
Qed.

(** X1: in every state reached from the empty store by the methods of the
    store and the handlers, the identifier of every record is at least 1
    and below [nextId], and no two records have the same identifier. *)
Theorem ids_fresh_and_distinct st i j u v :
  stepReachable st ->
  users st !! i = Some u ->
  users st !! j = Some v ->
  1 <= User.id u < nextId st
  /\ (User.id u = User.id v -> i = j).
Proof.
  intros Hreach Hu Hv.
  destruct (stepReachable_idsFresh st Hreach) as (_ & Hall & Hnd).
  unfold keyed in *. cbn [fst snd] in *.
  split.
  - apply (Forall_lookup_1 _ _ _ _ Hall (keysOf_lookup _ _ _ Hu)).
  - intros Heq. eapply NoDup_lookup; [exact Hnd| |].
    + rewrite list_lookup_fmap, (keysOf_lookup _ _ _ Hu). done.
    + rewrite list_lookup_fmap, (keysOf_lookup _ _ _ Hv). simpl. by rewrite Heq.
Qed.

(** *** The reset token and its expiry *)

Lemma tokenPaired_recordAttempt t s u :
  tokenPaired u -> tokenPaired (UserModel.recordAttempt t s u).
Proof.
  unfold tokenPaired, UserModel.recordAttempt. destruct s; simpl; [done|].
  by destruct (3 <=? _).
Qed.

Lemma step_tokenPaired st st' :
  step st st' -> everyUser tokenPaired st -> everyUser tokenPaired st'.
Proof.
  assert (Hnew : forall id e p n c, tokenPaired (User.new id e p n c)) by done.
  assert (Hspread : forall u d, tokenPaired u -> tokenPaired (spread u d)).
  { intros u [[?|] [?|] [?|]]; done. }
  assert (Hunlock : forall u, tokenPaired u -> tokenPaired (UserModel.unlock u))
    by done.
  assert (Hreset : forall u p, tokenPaired u -> tokenPaired (UserModel.applyReset p u))
    by done.
  pose proof tokenPaired_recordAttempt as Hrecord.
  assert (Hgen : forall now rand e,
    keeps (everyUser tokenPaired) (UserModel.generatePasswordResetToken now rand e)).
  { intros now rand e s Hs. unfold UserModel.generatePasswordResetToken, bind, get.
    destruct (findIndex _ _) as [i|]; [|done].
    destruct (users s !! i) as [u|] eqn:Hu; [|done]. simpl.
    by apply (everyUser_insert _ s i u). }
  intros Hstep. destruct Hstep; unfold run; intros Hs.
  - by apply keeps_create.
  - by apply keeps_update.
  - by apply keeps_delete.
  - by apply keeps_trackLoginAttempt.
  - by apply keeps_isAccountLocked.
  - by apply Hgen.
  - by apply keeps_verifyPasswordResetToken.
  - by apply keeps_resetPassword.
  - by apply keeps_clear.
  - apply keeps_handle; auto.
    + intros. by apply keeps_create.
    + intros. by apply keeps_update.
    + intros. by apply keeps_trackLoginAttempt.
    + intros. by apply keeps_isAccountLocked.
    + intros. by apply keeps_resetPassword.
    + intros. apply keeps_bcryptCompare.
Qed.

(** X2: in every state reached from the empty store by the methods of the
    store and the handlers, the reset token and its expiry are both null
    or both set, in every record. *)
Theorem reset_token_and_expiry_paired st i u :
  stepReachable st ->
  users st !! i = Some u ->
  (User.passwordResetToken u = JNull /\ User.passwordResetExpires u = None)
  \/ (exists token expires,
        User.passwordResetToken u = JStr token
        /\ User.passwordResetExpires u = Some expires).
Proof.
  unfold stepReachable. intros Hreach Hu.
  assert (HI : everyUser tokenPaired st).
  { assert (Hinit : everyUser tokenPaired initial) by constructor.
    clear Hu. revert Hinit. induction Hreach as [|x y z Hxy _ IH]; [done|].
    intros Hx. apply IH. by eapply step_tokenPaired. }
  pose proof (Forall_lookup_1 _ _ _ _ HI Hu) as Hp. unfold tokenPaired in Hp.
  destruct (User.passwordResetToken u), (User.passwordResetExpires u);
    try done; eauto.
Qed.

(** *** The counter and the lock, through the API *)

Lemma counted_loginOutcome tLock tTrack password u :
  counted u -> counted (snd (fst (loginOutcome tLock tTrack password u))).
Proof.
  unfold counted, loginOutcome, lockCheck. intros [Hle Hlock].
  destruct (User.isLocked u) eqn:Hl; simpl; [by rewrite Hl|].
  assert (Hlt : 0 <= User.loginAttempts u < 3).
  { destruct (Z.eq_dec (User.loginAttempts u) 3) as [H3|H3]; [|lia].
    apply Hlock in H3. congruence. }
  assert (Hrec : forall valid v,
    0 <= User.loginAttempts v < 3 ->
    User.isLocked v = false ->
    counted (UserModel.recordAttempt tTrack valid v)).
  { intros valid v Hv Hlv. unfold counted, UserModel.recordAttempt.
    destruct valid; simpl; [split; [lia|split; intros; (done || lia)]|].
    destruct (Z.leb_spec 3 (User.loginAttempts v + 1)); simpl;
      (split; [lia|split; intros; (done || lia || congruence)]). }
  destruct (User.lastLoginAttempt u) as [last|]; simpl.
  - destruct (_ && _); simpl; [by rewrite Hl|].
    destruct (_ <=? _); simpl; apply Hrec; simpl; (done || lia).
  - by apply Hrec.
Qed.

Lemma handle_counted r : keeps (everyUser counted) (AuthController.handle r).
Proof.
  assert (Hnew : forall id e p n c, counted (User.new id e p n c)).
  { intros. unfold counted. simpl. split; [lia|]. split; intros; (done || lia). }
  assert (Hspread : forall u d, counted u -> counted (spread u d)).
  { intros u [[?|] [?|] [?|]]; done. }
  assert (Hunlock : forall u, counted u -> counted (UserModel.unlock u)).
  { intros. unfold counted. simpl. split; [lia|]. split; intros; (done || lia). }
  assert (Htoken : forall u t x, counted u ->
    counted (User.set_passwordResetExpires x (User.set_passwordResetToken t u)))
    by done.
  assert (Hreset : forall u p, counted u -> counted (UserModel.applyReset p u)).
  { intros. unfold counted. simpl. split; [lia|]. split; intros; (done || lia). }
  destruct r; simpl.
  - by apply keeps_register.
  - intros st HI.
    destruct (find (byEmail email) (users st)) as [u|] eqn:Hf.
    + destruct (found_index _ _ _ Hf) as (i & Hi & Hu).
      rewrite (login_found _ _ _ _ _ _ _ Hi Hu).
      pose proof (counted_loginOutcome tLock tTrack password u) as Ho.
      destruct (loginOutcome tLock tTrack password u) as [[r v] calls]; simpl in *.
      unfold everyUser in *. simpl. apply Forall_insert; [done|].
      apply Ho. by eapply Forall_lookup_1.
    + rewrite (login_absent _ _ _ _ _ Hf). unfold everyUser in *. simpl.
      apply Forall_app. split; [done|]. constructor; [|done].
      unfold counted. simpl. split; [lia|]. split; intros; (done || lia).
  - by apply keeps_requestPasswordReset.
  - by apply keeps_handler_resetPassword.
  - by apply keeps_getProfile.
  - by apply keeps_updateProfile.
  - by apply keeps_changePassword.
Qed.

Lemma reachable_counted st : AuthController.reachable st -> everyUser counted st.
Proof.
  induction 1 as [|st r _ IH]; [constructor|]. by apply handle_counted.
Qed.

(** X3: in every state the handlers reach from the empty store, the
    counter of a record is never negative, and the record is locked exactly
    when its counter is 3. *)
Theorem locked_exactly_at_threshold st i u :
  AuthController.reachable st ->
  users st !! i = Some u ->
  0 <= User.loginAttempts u
  /\ (User.isLocked u = true <-> User.loginAttempts u = 3).
Proof.
  intros Hreach Hu.
  destruct (Forall_lookup_1 _ _ _ _ (reachable_counted st Hreach) Hu) as [Hle Hl].
  split; [lia|done].
Qed.

(** X4: in every state the handlers reach from the empty store, a login
    that is answered [AuthenticationFailed] with a count reports 1 or 2
    attempts remaining. *)
Theorem login_reports_one_or_two tLock tTrack e password st n :
  AuthController.reachable st ->
  result (AuthController.login tLock tTrack e password) st
  = AuthenticationFailed (Some n) ->
  n = 1 \/ n = 2.
Proof.
  intros Hreach. unfold result.
  destruct (find (byEmail e) (users st)) as [u|] eqn:Hf.
  2: { by rewrite (login_absent _ _ _ _ _ Hf). }
  destruct (found_index _ _ _ Hf) as (i & Hi & Hu).
  rewrite (login_found _ _ _ _ _ _ _ Hi Hu).
  pose proof (Forall_lookup_1 _ _ _ _ (reachable_counted st Hreach) Hu) as Hc.
  clear Hi Hu Hf.
  assert (Hc1 : 0 <= User.loginAttempts (snd (lockCheck tLock u))).
  { unfold lockCheck. destruct Hc as [Hc _].
    destruct (User.isLocked u); simpl; [lia|].
    destruct (User.lastLoginAttempt u); simpl; [|lia].
    destruct (_ && _); simpl; [lia|]. destruct (_ <=? _); simpl; lia. }
  unfold loginOutcome.
  destruct (lockCheck tLock u) as [[] u1]; simpl in *; [done|].
  destruct (passwordValid password u1); simpl; [done|].
  unfold failureResponse, UserModel.recordAttempt. simpl.
  destruct (Z.leb_spec 3 (User.loginAttempts u1 + 1)); simpl.
  - destruct (Z.ltb_spec 0 (3 - (User.loginAttempts u1 + 1))); [lia|done].
  - destruct (Z.ltb_spec 0 (3 - (User.loginAttempts u1 + 1))); [|done].
    intros [= <-]. lia.
Qed.

(** *** What the responses carry *)

Lemma returns_ret {A : Type} (Q : A -> Prop) (a : A) : Q a -> returns Q (ret a).
Proof. by intros Ha st. Qed.

Lemma returns_bind {A B : Type} (Q : B -> Prop) (m : M A) (k : A -> M B) :
  (forall a, returns Q (k a)) -> returns Q (bind m k).
Proof. intros Hk st. unfold bind. destruct (m st) as [a st']. apply Hk. Qed.

Ltac returns_step :=
  lazymatch goal with
  | |- returns _ (bind _ _) => apply returns_bind; intros ?
  | |- returns _ (ret _) => apply returns_ret
  | |- returns _ (match ?x with _ => _ end) => destruct x
  end.

(** X5: the user object of a response never has a password: whatever the
    request and the state, a response that carries a user carries it
    without its [password] key. *)
Theorem responses_carry_no_password r st u :
  carried (result (AuthController.handle r) st) = Some u ->
  User.password u = JUndefined.
Proof.
  revert u st.
  assert (H : returns (fun resp => forall u, carried resp = Some u ->
                                   User.password u = JUndefined)
                (AuthController.handle r)).
  { destruct r; simpl;
      [ unfold AuthController.register
      | unfold AuthController.login
      | unfold AuthController.requestPasswordReset
      | unfold AuthController.resetPassword
      | unfold AuthController.getProfile
      | unfold AuthController.updateProfile
      | unfold AuthController.changePassword ];
      repeat returns_step; simpl; intros v Hv; by simplify_eq. }
  intros u st. apply H.
Qed.

(** *** What a login leaves alone *)

(** X6: a login with the email [e] leaves every record with another email
    as it is, at its place. *)
Theorem login_leaves_other_records tLock tTrack e password st j v :
  users st !! j = Some v ->
  User.email v <> e ->
  users (run (AuthController.login tLock tTrack e password) st) !! j = Some v.
Proof.
  intros Hv Hne. unfold run.
  destruct (find (byEmail e) (users st)) as [u|] eqn:Hf.
  - destruct (found_index _ _ _ Hf) as (i & Hi & Hu).
    rewrite (login_found _ _ _ _ _ _ _ Hi Hu).
    destruct (loginOutcome tLock tTrack password u) as [[r u'] calls]. simpl.
    rewrite list_lookup_insert_ne; [done|]. intros ->.
    apply findIndex_Some in Hi as (w & Hw & Hp).
    assert (w = v) as -> by congruence.
    unfold byEmail, strict_eq in Hp. by apply bool_decide_eq_true in Hp.
  - rewrite (login_absent _ _ _ _ _ Hf). simpl. by apply lookup_app_l_Some.
Qed.

(** *** Records are never removed by a handler *)

Lemma grows_refl st : grows st st.
Proof. split; [lia|]. eauto. Qed.

Lemma grows_trans st1 st2 st3 : grows st1 st2 -> grows st2 st3 -> grows st1 st3.
Proof.
  intros [Hn1 H1] [Hn2 H2]. split; [lia|]. intros i u Hu.
  destruct (H1 i u Hu) as (u' & Hu' & Hid & Hc).
  destruct (H2 i u' Hu') as (u'' & Hu'' & Hid' & Hc').
  exists u''. split; [done|]. split; congruence.
Qed.

Lemma grows_insert st i u v :
  users st !! i = Some u ->
  User.id v = User.id u ->
  User.createdAt v = User.createdAt u ->
  grows st (set_users (<[i := v]> (users st)) st).
Proof.
  intros Hu Hid Hc. split; [simpl; lia|]. intros j w Hw. simpl.
  destruct (decide (i = j)) as [->|Hne].
  - exists v. rewrite list_lookup_insert_eq by (by eapply lookup_lt_Some).
    split; [done|]. split; congruence.
  - exists w. by rewrite list_lookup_insert_ne.
Qed.

Lemma grows_snoc st u :
  grows st (mkState (users st ++ [u]) (nextId st + 1) (bcryptCalls st)).
Proof.
  split; [simpl; lia|]. intros j w Hw. simpl. exists w.
  split; [by apply lookup_app_l_Some|done].
Qed.

Lemma grows_handle r st : grows st (snd (AuthController.handle r st)).
Proof.
  assert (Hk : forall A (m : M A),
    (forall s, grows s (snd (m s))) -> keeps (grows st) m).
  { intros A m Hm s Hs. eapply grows_trans; [exact Hs|apply Hm]. }
  apply (keeps_handle (grows st)); [..|apply grows_refl].
  - intros now e p n. apply Hk. intros s. apply grows_snoc.
  - intros id d. apply Hk. intros s. unfold UserModel.update, bind, get.
    destruct (findIndex _ _) as [i|]; [|apply grows_refl].
    destruct (users s !! i) as [u|] eqn:Hu; [|apply grows_refl]. simpl.
    apply (grows_insert s i u); [done|apply spread_id|].
    by destruct d as [[?|] [?|] [?|]].
  - intros now e success. apply Hk. intros s.
    unfold UserModel.trackLoginAttempt, bind, get.
    destruct (findIndex _ _) as [i|].
    + destruct (users s !! i) as [u|] eqn:Hu; [|apply grows_refl]. simpl.
      apply (grows_insert s i u); [done|apply recordAttempt_keys|].
      unfold UserModel.recordAttempt. destruct success; simpl; [done|].
      by destruct (3 <=? _).
    + destruct success; simpl; [apply grows_refl|]. apply grows_snoc.
  - intros now e. apply Hk. intros s.
    destruct (find (byEmail e) (users s)) as [u|] eqn:Hf.
    + destruct (found_index _ _ _ Hf) as (i & Hi & Hu).
      rewrite (isAccountLocked_found _ _ _ _ _ Hi Hu). simpl.
      apply (grows_insert s i u); [done|apply lockCheck_keys|].
      unfold lockCheck. destruct (User.isLocked u); [done|].
      destruct (User.lastLoginAttempt u); [|done].
      destruct (_ && _); [done|]. by destruct (_ <=? _).
    + rewrite isAccountLocked_absent by done. apply grows_refl.
  - intros now rand e. apply Hk. intros s.
    unfold UserModel.generatePasswordResetToken, bind, get.
    destruct (findIndex _ _) as [i|]; [|apply grows_refl].
    destruct (users s !! i) as [u|] eqn:Hu; [|apply grows_refl]. simpl.
    by apply (grows_insert s i u).
  - intros now e token p. apply Hk. intros s.
    unfold UserModel.resetPassword, bind, get.
    destruct (findIndex _ _) as [i|]; [|apply grows_refl].
    destruct (users s !! i) as [u|] eqn:Hu; [|apply grows_refl].
    destruct (negb _); [apply grows_refl|].
    destruct (_ <? _); [apply grows_refl|]. simpl.
    by apply (grows_insert s i u).
  - intros p d. apply Hk. intros s. split; [simpl; lia|]. simpl. eauto.
Qed.

(** X7: no handler removes or moves a record or changes its [id] or its
    [createdAt], and no handler lowers [nextId]: a record stored before a
    request is at the same index after it, with the same [id] and
    [createdAt]. *)
Theorem handlers_keep_records r st i u :
  users st !! i = Some u ->
  nextId st <= nextId (run (AuthController.handle r) st)
  /\ exists u',
       users (run (AuthController.handle r) st) !! i = Some u'
       /\ User.id u' = User.id u
       /\ User.createdAt u' = User.createdAt u.
Proof.
  intros Hu. destruct (grows_handle r st) as [Hn H]. split; [done|]. by apply H.
Qed.

(** *** Requesting, verifying and completing a reset *)

Lemma find_insert p (l : list User.t) i v :
  findIndex p l = Some i -> p v = true -> find p (<[i := v]> l) = Some v.
Proof.
  intros Hi Hv. eapply findIndex_find; [by apply findIndex_insert|].
  apply list_lookup_insert_eq. by eapply findIndex_lt.
Qed.

Lemma requestPasswordReset_found now rand e st i u :
  findIndex (byEmail e) (users st) = Some i ->
  users st !! i = Some u ->
  AuthController.requestPasswordReset now rand e st
  = (ResetLinkSent (JStr rand),
     set_users (<[i := withToken now rand u]> (users st)) st).
Proof.
  intros Hi Hu.
  unfold AuthController.requestPasswordReset, UserModel.findByEmail, bind, get, ret.
  simpl. rewrite (findIndex_find _ _ _ _ Hi Hu).
  unfold UserModel.generatePasswordResetToken, bind, get. by rewrite Hi, Hu.
Qed.

(** X8: [requestPasswordReset] with an email that has no record answers
    the generic message and changes nothing; with an email that has one it
    answers with the token drawn, and writes that token and the expiry
    [now + resetTTL] into the first record with the email, changing no
    other field and no other record. Both answers have status 200. *)
Theorem requestPasswordReset_spec now rand e st :
  match find (byEmail e) (users st) with
  | None =>
    AuthController.requestPasswordReset now rand e st = (ResetGenericMessage, st)
  | Some u =>
    exists i,
      users st !! i = Some u
      /\ AuthController.requestPasswordReset now rand e st
         = (ResetLinkSent (JStr rand),
            set_users
              (<[i := User.mk (User.id u) (User.email u) (User.password u)
                        (User.name u) (User.createdAt u) (User.loginAttempts u)
                        (User.lastLoginAttempt u) (User.isLocked u)
                        (JStr rand) (Some (now + UserModel.resetTTL))]>
                 (users st)) st)
  end
  /\ status ResetGenericMessage = status (ResetLinkSent (JStr rand)).
Proof.
  split; [|done].
  destruct (find (byEmail e) (users st)) as [u|] eqn:Hf.
  - destruct (found_index _ _ _ Hf) as (i & Hi & Hu). exists i. split; [done|].
    by rewrite (requestPasswordReset_found _ _ _ _ _ _ Hi Hu).
  - unfold AuthController.requestPasswordReset, UserModel.findByEmail, bind, get, ret.
    simpl. by rewrite Hf.
Qed.

Lemma verifyPasswordResetToken_valid now e token st :
  tokenValid now e token st = true ->
  exists u, find (byEmail e) (users st) = Some u
            /\ UserModel.verifyPasswordResetToken now e token st = (Some u, st).
Proof.
  intros Hv. unfold tokenValid in Hv.
  destruct (find (byEmail e) (users st)) as [u|] eqn:Hf; [|done].
  exists u. split; [done|].
  unfold UserModel.verifyPasswordResetToken, bind, get. rewrite Hf.
  apply andb_true_iff in Hv as [Ht Hx]. rewrite Ht. simpl.
  by rewrite Z.ltb_antisym, Hx.
Qed.

Lemma tokenValid_after_request now rand e st u t token :
  find (byEmail e) (users st) = Some u ->
  tokenValid t e token (run (AuthController.requestPasswordReset now rand e) st)
  = bool_decide (token = JStr rand) && (t <=? now + UserModel.resetTTL).
Proof.
  intros Hf. destruct (found_index _ _ _ Hf) as (i & Hi & Hu).
  unfold run. rewrite (requestPasswordReset_found _ _ _ _ _ _ Hi Hu).
  unfold tokenValid. simpl.
  rewrite (find_insert _ _ _ (withToken now rand u) Hi).
  2: { apply findIndex_Some in Hi as (w & Hw & Hp). by assert (w = u) as -> by congruence. }
  simpl. unfold strict_eq. f_equal.
  apply bool_decide_ext. split; congruence.
Qed.

(** X9: after [requestPasswordReset] at [now] for an email that has a
    record, [verifyPasswordResetToken] at time [t] returns a user exactly
    when the token presented is the one drawn and [t] is not after
    [now + resetTTL]; it never changes the state. *)
Theorem reset_token_round_trip now rand e st u t token :
  find (byEmail e) (users st) = Some u ->
  let st' := run (AuthController.requestPasswordReset now rand e) st in
  (is_Some (result (UserModel.verifyPasswordResetToken t e token) st')
   <-> token = JStr rand /\ t <= now + UserModel.resetTTL)
  /\ run (UserModel.verifyPasswordResetToken t e token) st' = st'.
Proof.
  intros Hf st'. split.
  - pose proof (tokenValid_after_request now rand e st u t token Hf) as Hv.
    fold st' in Hv. unfold result.
    destruct (tokenValid t e token st') eqn:Hvalid.
    + destruct (verifyPasswordResetToken_valid _ _ _ _ Hvalid) as (v & _ & ->).
      symmetry in Hv. apply andb_true_iff in Hv as [H1 H2].
      apply bool_decide_eq_true in H1. apply Z.leb_le in H2.
      split; [done|]. intros _. simpl. eauto.
    + rewrite (verifyPasswordResetToken_invalid _ _ _ _ Hvalid). simpl.
      split; [by intros [? ?]|]. intros [H1 H2].
      symmetry in Hv. apply andb_false_iff in Hv as [Hv|Hv].
      * by apply bool_decide_eq_false in Hv.
      * apply Z.leb_gt in Hv. lia.
  - apply keyed_verifyPasswordResetToken.
Qed.

(** *** Logins on a record that is not locked *)

Lemma lockCheck_unlocked now u :
  User.isLocked u = false ->
  User.loginAttempts u < 3 ->
  lockCheck now u = (false, if stale now u then UserModel.unlock u else u).
Proof.
  intros Hl Hn. unfold lockCheck, stale. rewrite Hl.
  destruct (User.lastLoginAttempt u) as [last|]; [|done].
  replace (3 <=? User.loginAttempts u) with false by (symmetry; apply Z.leb_gt; lia).
  simpl. by destruct (_ <=? _).
Qed.

Lemma login_valid_password tLock tTrack e password st u :
  find (byEmail e) (users st) = Some u ->
  User.isLocked u = false ->
  User.loginAttempts u < 3 ->
  passwordValid password u = true ->
  exists i,
    users st !! i = Some u
    /\ AuthController.login tLock tTrack e password st
       = (LoginSuccessful
            (withoutPassword (if stale tLock u then UserModel.unlock u else u))
            (jwt_sign (User.id u) (User.email u)),
          mkState
            (<[i := User.mk (User.id u) (User.email u) (User.password u)
                      (User.name u) (User.createdAt u) 0 (Some tTrack) false
                      (User.passwordResetToken u) (User.passwordResetExpires u)]>
               (users st))
            (nextId st) (bcryptCalls st ++ compareLog password u)).
Proof.
  intros Hf Hl Hn Hp. destruct (found_index _ _ _ Hf) as (i & Hi & Hu).
  exists i. split; [done|].
  rewrite (login_found _ _ _ _ _ _ _ Hi Hu). unfold loginOutcome.
  rewrite (lockCheck_unlocked _ _ Hl Hn).
  destruct (stale tLock u); cbv beta iota zeta.
  - by rewrite (passwordValid_ext password u (UserModel.unlock u) eq_refl), Hp.
  - by rewrite Hp.
Qed.

(** X10: a login with a valid password on a record that is not locked and
    has fewer than 3 failed attempts is answered [LoginSuccessful]; it sets
    the counter to 0 and [lastLoginAttempt] to the time of the attempt,
    and changes no other field and no other record. *)
Theorem login_success tLock tTrack e password st u :
  find (byEmail e) (users st) = Some u ->
  User.isLocked u = false ->
  User.loginAttempts u < 3 ->
  passwordValid password u = true ->
  exists i,
    users st !! i = Some u
    /\ AuthController.login tLock tTrack e password st
       = (LoginSuccessful
            (withoutPassword (if stale tLock u then UserModel.unlock u else u))
            (jwt_sign (User.id u) (User.email u)),
          mkState
            (<[i := User.mk (User.id u) (User.email u) (User.password u)
                      (User.name u) (User.createdAt u) 0 (Some tTrack) false
                      (User.passwordResetToken u) (User.passwordResetExpires u)]>
               (users st))
            (nextId st) (bcryptCalls st ++ compareLog password u)).
Proof. apply login_valid_password. Qed.

(** X11: on a record that is not locked, failed attempts older than the
    lockout duration are forgotten: a failed login then counts from 0, is
    answered with 2 attempts remaining, and leaves the counter at 1. *)
Theorem login_failure_after_quiet_period tLock tTrack e password st u last :
  find (byEmail e) (users st) = Some u ->
  User.isLocked u = false ->
  User.loginAttempts u < 3 ->
  User.lastLoginAttempt u = Some last ->
  UserModel.lockoutDuration <= tLock - last ->
  passwordValid password u = false ->
  result (AuthController.login tLock tTrack e password) st
  = AuthenticationFailed (Some 2)
  /\ exists u',
       find (byEmail e) (users (run (AuthController.login tLock tTrack e password) st))
       = Some u'
       /\ User.loginAttempts u' = 1
       /\ User.isLocked u' = false.
Proof.
  intros Hf Hl Hn Hlast Hq Hp. destruct (found_index _ _ _ Hf) as (i & Hi & Hu).
  destruct (login_found_run tLock tTrack e password st i u Hi Hu)
    as (Hr & _ & _ & Hf').
  assert (Ho : loginOutcome tLock tTrack password u
               = (AuthenticationFailed (Some 2),
                  UserModel.recordAttempt tTrack false (UserModel.unlock u),
                  compareLog password (UserModel.unlock u))).
  { unfold loginOutcome. rewrite (lockCheck_unlocked _ _ Hl Hn).
    unfold stale. rewrite Hlast.
    replace (UserModel.lockoutDuration <=? tLock - last) with true
      by (symmetry; apply Z.leb_le; lia).
    cbv beta iota zeta.
    by rewrite (passwordValid_ext password u (UserModel.unlock u) eq_refl), Hp. }
  rewrite Ho in Hr, Hf'. simpl in Hr, Hf'. split; [done|].
  eexists. split; [exact Hf'|]. done.
Qed.

(** *** Registration, reset and login together *)

Lemma register_absent now salt e password name st :
  find (byEmail e) (users st) = None ->
  AuthController.register now salt e password name st
  = (UserRegistered
       (withoutPassword
          (User.new (nextId st) e (JStr (bcrypt_hash salt password)) name now))
       (jwt_sign (nextId st) e),
     mkState
       (users st ++ [User.new (nextId st) e (JStr (bcrypt_hash salt password)) name now])
       (nextId st + 1) (bcryptCalls st)).
Proof.
  intros Hf.
  unfold AuthController.register, UserModel.findByEmail, bind, get, ret. simpl.
  by rewrite Hf.
Qed.

Lemma find_snoc p (l : list User.t) u :
  find p l = None -> p u = true -> find p (l ++ [u]) = Some u.
Proof.
  intros Hn Hu. eapply findIndex_find.
  - apply findIndex_app_None; [by apply find_None_findIndex|done].
  - by rewrite lookup_app_r, Nat.sub_diag.
Qed.

Lemma byEmail_refl e u : User.email u = e -> byEmail e u = true.
Proof. intros <-. unfold byEmail, strict_eq. by apply bool_decide_eq_true. Qed.

(** X12: an account registered under an email that had no record can log
    in with the password it registered, provided [bcrypt.compare] accepts
    the digest [bcrypt.hash] made of that password and the digest is not
    the empty string: the login is answered [LoginSuccessful], with a
    token and with the user object that [register] returned, whose
    identifier is the [nextId] of the registration. *)
Theorem register_then_login now salt e password name tLock tTrack st :
  find (byEmail e) (users st) = None ->
  bcrypt_hash salt password <> EmptyString ->
  bcrypt_compare password (bcrypt_hash salt password) = true ->
  let st1 := run (AuthController.register now salt e password name) st in
  exists user token token',
    result (AuthController.register now salt e password name) st
    = UserRegistered user token
    /\ User.id user = nextId st
    /\ result (AuthController.login tLock tTrack e password) st1
       = LoginSuccessful user token'.
Proof.
  intros Hf Hne Hc st1.
  set (u := User.new (nextId st) e (JStr (bcrypt_hash salt password)) name now).
  assert (Hst1 : find (byEmail e) (users st1) = Some u).
  { unfold st1, run. rewrite (register_absent _ _ _ _ _ _ Hf). simpl.
    apply find_snoc; [done|]. by apply byEmail_refl. }
  assert (Hp : passwordValid password u = true).
  { unfold passwordValid. simpl. rewrite Hc.
    destruct (bcrypt_hash salt password); [done|done]. }
  destruct (login_valid_password tLock tTrack e password st1 u Hst1) as (i & _ & Hl);
    [done|simpl; lia|done|].
  exists (withoutPassword u), (jwt_sign (nextId st) e), (jwt_sign (User.id u) (User.email u)).
  unfold result. rewrite (register_absent _ _ _ _ _ _ Hf), Hl. simpl.
  split; [done|]. split; [done|]. done.
Qed.

Lemma handler_resetPassword_valid tVerify tReset salt e token newPassword st i u :
  findIndex (byEmail e) (users st) = Some i ->
  users st !! i = Some u ->
  tokenValid tVerify e token st = true ->
  tokenValid tReset e token st = true ->
  AuthController.resetPassword tVerify tReset salt e token newPassword st
  = (PasswordResetSuccessful,
     set_users
       (<[i := UserModel.applyReset (JStr (bcrypt_hash salt newPassword)) u]> (users st))
       st).
Proof.
  intros Hi Hu Hv Hr. unfold AuthController.resetPassword, bind at 1.
  destruct (verifyPasswordResetToken_valid _ _ _ _ Hv) as (v & _ & ->).
  destruct (resetPassword_valid tReset e token (JStr (bcrypt_hash salt newPassword)) st Hr)
    as (i' & u' & Hi' & Hu' & Hreset).
  assert (i' = i) as -> by congruence. assert (u' = u) as -> by congruence.
  unfold bind. by rewrite Hreset.
Qed.

(** X13: the recovery of an account, locked or not. After
    [requestPasswordReset] for its email, the reset with the token drawn,
    made before the expiry, is answered [PasswordResetSuccessful]; a login
    with the new password is then answered [LoginSuccessful], for the same
    identifier, with the counter at 0 and the lock off, provided
    [bcrypt.compare] accepts the digest [bcrypt.hash] made of the new
    password and the digest is not the empty string. *)
Theorem reset_then_login now rand salt e newPassword tVerify tReset tLock tTrack st u :
  find (byEmail e) (users st) = Some u ->
  tVerify <= now + UserModel.resetTTL ->
  tReset <= now + UserModel.resetTTL ->
  bcrypt_hash salt newPassword <> EmptyString ->
  bcrypt_compare newPassword (bcrypt_hash salt newPassword) = true ->
  let st1 := run (AuthController.requestPasswordReset now rand e) st in
  let st2 :=
    run (AuthController.resetPassword tVerify tReset salt e (JStr rand) newPassword) st1 in
  result (AuthController.resetPassword tVerify tReset salt e (JStr rand) newPassword) st1
  = PasswordResetSuccessful
  /\ exists user token,
       result (AuthController.login tLock tTrack e newPassword) st2
       = LoginSuccessful user token
       /\ User.id user = User.id u
       /\ User.loginAttempts user = 0
       /\ User.isLocked user = false.
Proof.
  intros Hf Hv Hr Hne Hc st1 st2.
  destruct (found_index _ _ _ Hf) as (i & Hi & Hu).
  assert (He : byEmail e u = true).
  { apply findIndex_Some in Hi as (w & Hw & Hp). by assert (w = u) as -> by congruence. }
  assert (Hvalid : forall t, t <= now + UserModel.resetTTL ->
                             tokenValid t e (JStr rand) st1 = true).
  { intros t Ht. unfold st1.
    rewrite (tokenValid_after_request now rand e st u t (JStr rand) Hf).
    apply andb_true_iff. split; [by apply bool_decide_eq_true|by apply Z.leb_le]. }
  assert (Hi1 : findIndex (byEmail e) (users st1) = Some i).
  { unfold st1, run. rewrite (requestPasswordReset_found _ _ _ _ _ _ Hi Hu). simpl.
    by apply findIndex_insert. }
  assert (Hu1 : users st1 !! i = Some (withToken now rand u)).
  { unfold st1, run. rewrite (requestPasswordReset_found _ _ _ _ _ _ Hi Hu). simpl.
    apply list_lookup_insert_eq. by eapply findIndex_lt. }
  pose proof (handler_resetPassword_valid tVerify tReset salt e (JStr rand) newPassword
                st1 i _ Hi1 Hu1 (Hvalid _ Hv) (Hvalid _ Hr)) as Hreset.
  split; [unfold result; by rewrite Hreset|].
  set (u2 := UserModel.applyReset (JStr (bcrypt_hash salt newPassword))
               (withToken now rand u)) in *.
  assert (Hf2 : find (byEmail e) (users st2) = Some u2).
  { unfold st2, run. rewrite Hreset. simpl. by apply find_insert. }
  assert (Hp : passwordValid newPassword u2 = true).
  { unfold passwordValid. simpl. rewrite Hc.
    destruct (bcrypt_hash salt newPassword); [done|done]. }
  destruct (login_valid_password tLock tTrack e newPassword st2 u2 Hf2) as (j & _ & Hl);
    [done|simpl; lia|done|].
  eexists _, _. unfold result. rewrite Hl. simpl. split; [done|].
  by destruct (stale tLock u2).
Qed.

(** *** Changing the password and the profile *)

Lemma findById_found id st u :
  find (byId id) (users st) = Some u ->
  exists i, findIndex (byId id) (users st) = Some i
            /\ users st !! i = Some u /\ User.id u = id.
Proof.
  intros H. apply find_Some_findIndex in H as (i & Hi & Hu & Hp).
  exists i. split; [done|]. split; [done|]. by apply Z.eqb_eq.
Qed.

(** X14: [changePassword] changes a record only when it answers
    [PasswordChanged]: then the record of [userId] had a digest that
    [bcrypt.compare] accepts for the current password and rejects for the
    new one, and its [password] is now the digest of the new password,
    every other field and record being as before. With every other answer
    the records are unchanged. [nextId] never changes. *)
Theorem changePassword_effect userId salt currentPassword newPassword st :
  let r := result (AuthController.changePassword userId salt currentPassword newPassword) st in
  let st' := run (AuthController.changePassword userId salt currentPassword newPassword) st in
  nextId st' = nextId st
  /\ match r with
     | PasswordChanged =>
       exists i u digest,
         users st !! i = Some u
         /\ User.id u = userId
         /\ User.password u = JStr digest
         /\ bcrypt_compare currentPassword digest = true
         /\ bcrypt_compare newPassword digest = false
         /\ users st'
            = <[i := User.set_password (JStr (bcrypt_hash salt newPassword)) u]> (users st)
     | _ => users st' = users st
     end.
Proof.
  cbv zeta. unfold result, run.
  destruct (AuthController.changePassword userId salt currentPassword newPassword st)
    as [r st'] eqn:Heq. simpl.
  unfold AuthController.changePassword, UserModel.findById, bind, get, ret in Heq.
  simpl in Heq.
  destruct (find (byId userId) (users st)) as [u|] eqn:Hf;
    [|by injection Heq as <- <-].
  destruct (findById_found _ _ _ Hf) as (i & Hi & Hu & Hid).
  destruct (User.password u) as [| |digest] eqn:Hp;
    try (by injection Heq as <- <-).
  unfold AuthController.bcryptCompare, bind, get, put, ret in Heq. simpl in Heq.
  destruct (bcrypt_compare currentPassword digest) eqn:Hc1; simpl in Heq;
    [|by injection Heq as <- <-].
  destruct (bcrypt_compare newPassword digest) eqn:Hc2; simpl in Heq;
    [by injection Heq as <- <-|].
  unfold UserModel.update, bind, get, put, ret in Heq. simpl in Heq.
  rewrite Hi, Hu in Heq. simpl in Heq. injection Heq as <- <-. simpl.
  split; [done|]. exists i, u, digest. done.
Qed.

Lemma updateProfile_cases userId name email st :
  let r := result (AuthController.updateProfile userId name email) st in
  let st' := run (AuthController.updateProfile userId name email) st in
  match r with
  | ProfileUpdated v =>
    exists i u,
      users st !! i = Some u
      /\ User.id u = userId
      /\ st' = set_users (<[i := User.set_email email (User.set_name name u)]> (users st)) st
      /\ v = withoutPassword (User.set_email email (User.set_name name u))
      /\ (truthy email = true ->
          forall w, find (byEmail email) (users st) = Some w -> User.id w = userId)
  | _ => st' = st
  end.
Proof.
  cbv zeta. unfold result, run.
  destruct (AuthController.updateProfile userId name email st) as [r st'] eqn:Heq.
  simpl. unfold AuthController.updateProfile in Heq.
  destruct (AuthController.badEmailFormat email); [by injection Heq as <- <-|].
  destruct (AuthController.badNameLength name); [by injection Heq as <- <-|].
  assert (Hupd : forall taken : bool,
    (truthy email = true -> taken = false ->
     forall w, find (byEmail email) (users st) = Some w -> User.id w = userId) ->
    (if taken then ret EmailAlreadyExists
     else bind (UserModel.update userId (mkUpdateData (Some name) (Some email) None))
            (fun updatedUser => match updatedUser with
               | None => ret UserNotFound
               | Some updatedUser => ret (ProfileUpdated (withoutPassword updatedUser))
               end)) st = (r, st') ->
    match r with
    | ProfileUpdated v =>
      exists i u, users st !! i = Some u /\ User.id u = userId
        /\ st' = set_users (<[i := User.set_email email (User.set_name name u)]> (users st)) st
        /\ v = withoutPassword (User.set_email email (User.set_name name u))
        /\ (truthy email = true ->
            forall w, find (byEmail email) (users st) = Some w -> User.id w = userId)
    | _ => st' = st
    end).
  { intros taken Htaken. destruct taken; [by intros [= <- <-]|].
    unfold UserModel.update, bind, get, put, ret. simpl.
    destruct (findIndex (byId userId) (users st)) as [i|] eqn:Hi; simpl;
      [|by intros [= <- <-]].
    destruct (users st !! i) as [u|] eqn:Hu; simpl; [|by intros [= <- <-]].
    intros [= <- <-]. exists i, u. split; [done|].
    split; [|split; [done|split; [done|auto]]].
    apply findIndex_Some in Hi as (w & Hw & Hp).
    assert (w = u) as -> by congruence. by apply Z.eqb_eq. }
  unfold bind at 1 in Heq.
  destruct (truthy email) eqn:Ht.
  - unfold UserModel.findByEmail, bind at 1, get, ret in Heq. simpl in Heq.
    apply Hupd in Heq; [done|]. intros _ Hw w Hf. rewrite Hf in Hw.
    apply negb_false_iff in Hw. by apply Z.eqb_eq.
  - unfold ret at 1 in Heq. simpl in Heq. apply (Hupd false) in Heq; [done|done].
Qed.

(** X15: [updateProfile] changes the state only when it answers
    [ProfileUpdated]: then the record of [userId] has the [name] and the
    [email] of the body and its other fields as before, the response
    carries that record, and an email that is truthy was not the email of
    the first record found under it unless that record is the one of
    [userId]. With every other answer the state is unchanged. *)
Theorem updateProfile_effect userId name email st :
  let r := result (AuthController.updateProfile userId name email) st in
  let st' := run (AuthController.updateProfile userId name email) st in
  match r with
  | ProfileUpdated v =>
    exists i u,
      users st !! i = Some u
      /\ User.id u = userId
      /\ st' = set_users (<[i := User.set_email email (User.set_name name u)]> (users st)) st
      /\ v = withoutPassword (User.set_email email (User.set_name name u))
      /\ (truthy email = true ->
          forall w, find (byEmail email) (users st) = Some w -> User.id w = userId)
  | _ => st' = st
  end.
Proof. apply updateProfile_cases. Qed.

(** *** Creating, finding and deleting *)

Lemma find_app p (l : list User.t) u :
  find p (l ++ [u])
  = match find p l with
    | Some w => Some w
    | None => if p u then Some u else None
    end.
Proof.
  induction l as [|v l IH]; simpl; [done|]. by destruct (p v).
Qed.

Lemma find_None_Forall p (l : list User.t) :
  Forall (fun u => p u = false) l -> find p l = None.
Proof. induction 1 as [|u l Hu _ IH]; simpl; [done|]. by rewrite Hu. Qed.

Lemma find_delete_other p (l : list User.t) i u :
  l !! i = Some u -> p u = false -> find p (base.delete i l) = find p l.
Proof.
  revert i. induction l as [|v l IH]; intros [|i]; simpl; try done.
  - intros [= ->] ->. done.
  - intros Hu Hp. destruct (p v); [done|]. by apply IH.
Qed.

(** X16: [create] returns a record with the identifier [nextId]. When
    every stored identifier is below [nextId] and [nextId] is a safe
    integer, [findById] with that identifier then returns the new record,
    and every other safe integer is found, or not, as before;
    [findByEmail] with its email returns the new record only if the email
    had no record, and otherwise the record that had it first. *)
Theorem create_then_find now e password name st :
  (forall i u, users st !! i = Some u -> User.id u < nextId st) ->
  safeInteger (nextId st) ->
  let user := result (UserModel.create now e password name) st in
  let st' := run (UserModel.create now e password name) st in
  User.id user = nextId st
  /\ result (UserModel.findById (nextId st)) st' = Some user
  /\ (forall k, safeInteger k -> k <> nextId st ->
      result (UserModel.findById k) st' = result (UserModel.findById k) st)
  /\ result (UserModel.findByEmail e) st'
     = Some (default user (result (UserModel.findByEmail e) st)).
Proof.
  intros Hfresh _ user st'. unfold user, st', result, run. simpl.
  split; [done|]. rewrite !find_app.
  assert (Hnone : find (byId (nextId st)) (users st) = None).
  { apply find_None_Forall, Forall_lookup_2. intros i u Hu.
    unfold byId. apply Z.eqb_neq. specialize (Hfresh i u Hu). lia. }
  rewrite Hnone. unfold byId at 1. simpl. rewrite Z.eqb_refl.
  split; [done|]. split.
  - intros k _ Hk. rewrite find_app. unfold byId at 2. simpl.
    replace (nextId st =? k) with false by (symmetry; apply Z.eqb_neq; lia).
    by destruct (find (byId k) (users st)).
  - destruct (find (byEmail e) (users st)); simpl; [done|].
    by rewrite byEmail_refl.
Qed.

(** X17: [delete] with a safe integer returns whether the identifier has
    a record, removes the first record with it, and leaves [nextId] as it
    is. When no two records share an identifier, [findById] with that
    identifier then returns null and every other safe integer is found,
    or not, as before. *)
Theorem delete_then_find id st :
  safeInteger id ->
  (forall i j u v,
     users st !! i = Some u -> users st !! j = Some v ->
     User.id u = User.id v -> i = j) ->
  let st' := run (UserModel.delete id) st in
  result (UserModel.delete id) st
  = match result (UserModel.findById id) st with Some _ => true | None => false end
  /\ nextId st' = nextId st
  /\ result (UserModel.findById id) st' = None
  /\ (forall k, safeInteger k -> k <> id ->
      result (UserModel.findById k) st' = result (UserModel.findById k) st).
Proof.
  intros _ Hdistinct st'.
  unfold st', result, run, UserModel.findById, UserModel.delete, bind, get, ret.
  simpl. rewrite find_findIndex.
  destruct (findIndex (byId id) (users st)) as [i|] eqn:Hi; simpl.
  2: { split; [done|]. split; [done|]. split; [|done].
       by rewrite find_findIndex, Hi. }
  destruct (findIndex_Some _ _ _ Hi) as (u & Hu & Hp).
  rewrite Hu. simpl. split; [done|]. split; [done|].
  rewrite <- delete_take_drop. apply Z.eqb_eq in Hp. split.
  - apply find_None_Forall, Forall_lookup_2. intros j w Hw.
    unfold byId. apply Z.eqb_neq. intros Hid.
    rewrite list_lookup_delete in Hw.
    destruct (decide (j < i)%nat) as [Hlt|Hge].
    + assert (j = i) by (eapply Hdistinct; eauto; congruence). lia.
    + assert (S j = i) by (eapply Hdistinct; eauto; congruence). lia.
  - intros k _ Hk. apply (find_delete_other _ _ _ u Hu).
    unfold byId. apply Z.eqb_neq. lia.
Qed.

(** *** Emails, through the API *)

Lemma emailsDistinct_snoc ks n n' a e :
  (forall j b, ks !! j = Some (b, e) -> False) ->
  emailsDistinct (ks, n) -> emailsDistinct (ks ++ [(a, e)], n').
Proof.
  unfold emailsDistinct. cbn [fst snd]. intros Hfree Hd i j x y e' Hi Hj Ht.
  apply lookup_snoc_Some in Hi as [[Hli Hi]|[-> Hi]];
    apply lookup_snoc_Some in Hj as [[Hlj Hj]|[-> Hj]].
  - by eapply Hd.
  - injection Hj as -> ->. by destruct (Hfree _ _ Hi).
  - injection Hi as -> ->. by destruct (Hfree _ _ Hj).
  - done.
Qed.

Lemma emailsDistinct_insert ks n i a e :
  (i < length ks)%nat ->
  (truthy e = true -> forall j b, ks !! j = Some (b, e) -> j = i) ->
  emailsDistinct (ks, n) -> emailsDistinct (<[i := (a, e)]> ks, n).
Proof.
  unfold emailsDistinct. cbn [fst snd]. intros Hlt Hfree Hd j1 j2 x y e' H1 H2 Ht.
  destruct (decide (j1 = i)) as [->|Hn1]; destruct (decide (j2 = i)) as [->|Hn2];
    try done.
  - rewrite list_lookup_insert_eq in H1 by done. injection H1 as -> ->.
    rewrite list_lookup_insert_ne in H2 by done. symmetry. by eapply Hfree.
  - rewrite list_lookup_insert_eq in H2 by done. injection H2 as -> ->.
    rewrite list_lookup_insert_ne in H1 by done. by eapply Hfree.
  - rewrite list_lookup_insert_ne in H1, H2 by done. by eapply Hd.
Qed.

Lemma find_None_keys e st j b :
  find (byEmail e) (users st) = None -> keysOf st !! j = Some (b, e) -> False.
Proof.
  intros Hf Hj. unfold keysOf in Hj. rewrite list_lookup_fmap in Hj.
  destruct (users st !! j) as [u|] eqn:Hu; [|done]. injection Hj as _ He.
  apply find_None_findIndex, findIndex_None in Hf.
  pose proof (Forall_lookup_1 _ _ _ _ Hf Hu) as Hp. simpl in Hp.
  by rewrite byEmail_refl in Hp.
Qed.

Lemma loginOutcome_keys tLock tTrack password u :
  User.id (snd (fst (loginOutcome tLock tTrack password u))) = User.id u
  /\ User.email (snd (fst (loginOutcome tLock tTrack password u))) = User.email u.
Proof.
  unfold loginOutcome. pose proof (lockCheck_keys tLock u) as [H1 H2].
  destruct (lockCheck tLock u) as [[] u1]; simpl in *; [done|].
  destruct (recordAttempt_keys tTrack (passwordValid password u1) u1) as [H3 H4].
  split; congruence.
Qed.

Lemma keyed_update_password id v st :
  keyed (snd (UserModel.update id (mkUpdateData None None (Some v)) st)) = keyed st.
Proof.
  unfold UserModel.update, bind, get.
  destruct (findIndex _ _) as [i|]; [|done].
  destruct (users st !! i) as [u|] eqn:Hu; [|done]. simpl.
  by eapply keyed_insert.
Qed.

(** The handlers that leave the keys as they are. *)
Lemma keyed_handle_same r st :
  match r with
  | AuthController.RequestPasswordReset _ _ _
  | AuthController.ResetPassword _ _ _ _ _ _
  | AuthController.GetProfile _
  | AuthController.ChangePassword _ _ _ _ => True
  | _ => False
  end ->
  keyed (snd (AuthController.handle r st)) = keyed st.
Proof.
  intros Hr.
  assert (H : keeps (fun s => keyed s = keyed st) (AuthController.handle r)).
  { destruct r; try done; simpl.
    - unfold AuthController.requestPasswordReset. repeat keeps_step; try (by intros ?).
      intros ? Hs. by rewrite keyed_generatePasswordResetToken.
    - unfold AuthController.resetPassword. repeat keeps_step; try (by intros ?).
      + intros ? Hs. by rewrite keyed_verifyPasswordResetToken.
      + intros ? Hs. by rewrite keyed_resetPassword.
    - unfold AuthController.getProfile. repeat keeps_step; by intros ?.
    - unfold AuthController.changePassword. repeat keeps_step; try (by intros ?).
      intros ? Hs. by rewrite keyed_update_password. }
  by apply H.
Qed.

Lemma handle_keysInv r st :
  idsFresh (keyed st) /\ emailsDistinct (keyed st) ->
  idsFresh (keyed (snd (AuthController.handle r st)))
  /\ emailsDistinct (keyed (snd (AuthController.handle r st))).
Proof.
  intros [Hids Hem].
  destruct r as [now salt e password name|tLock tTrack e password|now rand e
                 |tVerify tReset salt e token newPassword|userId|userId name e
                 |userId salt cur new];
    try (by rewrite keyed_handle_same).
  - (* register *)
    simpl. destruct (find (byEmail e) (users st)) as [w|] eqn:Hf.
    + unfold AuthController.register, UserModel.findByEmail, bind, get, ret. simpl.
      by rewrite Hf.
    + rewrite (register_absent _ _ _ _ _ _ Hf). unfold keyed, keysOf. simpl.
      rewrite fmap_app. simpl. split; [by apply idsFresh_snoc|].
      eapply emailsDistinct_snoc; [|exact Hem]. intros j b. by apply find_None_keys.
  - (* login *)
    simpl. destruct (find (byEmail e) (users st)) as [u|] eqn:Hf.
    + destruct (found_index _ _ _ Hf) as (i & Hi & Hu).
      rewrite (login_found _ _ _ _ _ _ _ Hi Hu).
      destruct (loginOutcome_keys tLock tTrack password u) as [H1 H2].
      destruct (loginOutcome tLock tTrack password u) as [[r v] calls]. simpl in *.
      replace (keyed _) with (keyed st); [done|]. symmetry.
      apply (keyed_insert st i u v Hu H1 H2).
    + rewrite (login_absent _ _ _ _ _ Hf). unfold keyed, keysOf. simpl.
      rewrite fmap_app. simpl. split; [by apply idsFresh_snoc|].
      eapply emailsDistinct_snoc; [|exact Hem]. intros j b. by apply find_None_keys.
  - (* updateProfile *)
    simpl. pose proof (updateProfile_cases userId name e st) as Hc.
    cbv zeta in Hc. unfold result, run in Hc.
    destruct (AuthController.updateProfile userId name e st) as [r st']. simpl in *.
    destruct r; try (by subst st').
    destruct Hc as (i & u & Hu & Hid & -> & _ & Hown).
    unfold keyed. rewrite keysOf_insert. simpl.
    pose proof (keysOf_lookup _ _ _ Hu) as Hk. split.
    + eapply idsFresh_insert; [exact Hk|exact Hids].
    + apply emailsDistinct_insert; [|intros Ht j b Hj|exact Hem].
      { unfold keysOf. rewrite length_fmap. by eapply lookup_lt_Some. }
      (* the record with the email is the one of [userId] *)
      unfold keysOf in Hj. rewrite list_lookup_fmap in Hj.
      destruct (users st !! j) as [w|] eqn:Hw; [|done]. injection Hj as Hb He.
      destruct (find (byEmail e) (users st)) as [w0|] eqn:Hf.
      2: { exfalso. eapply (find_None_keys e st j); [done|].
           by eapply keysOf_lookup_eq. }
      destruct (found_index _ _ _ Hf) as (j0 & Hj0 & Hw0).
      assert (He0 : User.email w0 = e).
      { apply findIndex_Some in Hj0 as (x & Hx & Hp). assert (x = w0) as -> by congruence.
        unfold byEmail, strict_eq in Hp. by apply bool_decide_eq_true in Hp. }
      assert (j = j0).
      { eapply (Hem j j0 (User.id w) (User.id w0) e); [| |done].
        - exact (keysOf_lookup_eq st j w _ _ Hw eq_refl He).
        - exact (keysOf_lookup_eq st j0 w0 _ _ Hw0 eq_refl He0). }
      subst j0. assert (w0 = w) as -> by congruence.
      specialize (Hown Ht w eq_refl).
      destruct Hids as (_ & _ & Hnd). unfold keyed in Hnd. cbn [fst] in Hnd.
      eapply NoDup_lookup; [exact Hnd| |].
      * rewrite list_lookup_fmap, (keysOf_lookup _ _ _ Hw). done.
      * rewrite list_lookup_fmap, Hk. simpl. congruence.
Qed.

Lemma reachable_keysInv st :
  AuthController.reachable st ->
  idsFresh (keyed st) /\ emailsDistinct (keyed st).
Proof.
  induction 1 as [|st r _ IH]; [|by apply handle_keysInv].
  split.
  - unfold keyed, keysOf, idsFresh. simpl. split; [done|]. split; constructor.
  - intros i j a b e Hi. done.
Qed.

(** X18: in every state the handlers reach from the empty store, one
    request after the other, two different records never have the same
    email, when that email is truthy (not null, undefined or the empty
    string). *)
Theorem truthy_emails_distinct st i j u v :
  AuthController.reachable st ->
  users st !! i = Some u ->
  users st !! j = Some v ->
  i <> j ->
  truthy (User.email u) = true ->
  User.email u <> User.email v.
Proof.
  intros Hreach Hu Hv Hne Ht He. apply Hne.
  destruct (reachable_keysInv st Hreach) as [_ Hem].
  eapply (Hem i j (User.id u) (User.id v) (User.email u)); [| |done].
  - exact (keysOf_lookup st i u Hu).
  - exact (keysOf_lookup_eq st j v _ _ Hv eq_refl (eq_sym He)).
Qed.

(** *** The format of an email in [updateProfile] *)

Lemma splitAt_Some l a r :
  splitAt l = Some (a, r) ->
  l = a ++ "@"%char :: r /\ Forall (fun c => Ascii.eqb c "@" = false) a.
Proof.
  revert a. induction l as [|c l IH]; intros a; simpl; [done|].
  destruct (Ascii.eqb c "@") eqn:Hc.
  - intros [= <- <-]. apply Ascii.eqb_eq in Hc as ->. split; [done|constructor].
  - destruct (splitAt l) as [[a' r']|]; [|done]. intros [= <- <-].
    destruct (IH a' eq_refl) as [-> Ha]. split; [done|]. by constructor.
Qed.

Lemma splitAt_app a r :
  Forall (fun c => Ascii.eqb c "@" = false) a ->
  splitAt (a ++ "@"%char :: r) = Some (a, r).
Proof.
  induction 1 as [|c a Hc _ IH]; simpl; [done|]. by rewrite Hc, IH.
Qed.

Lemma dotInside_split r :
  dotInside r = true ->
  exists b c, r = b ++ "."%char :: c /\ b <> [] /\ c <> [].
Proof.
  induction r as [|x r IH]; [done|].
  destruct r as [|d t]; [done|].
  change (dotInside (x :: d :: t))
    with ((Ascii.eqb d "." && match t with [] => false | _ => true end)
          || dotInside (d :: t)).
  intros H. apply orb_true_iff in H as [H|H].
  - apply andb_true_iff in H as [Hd Ht]. apply Ascii.eqb_eq in Hd as ->.
    exists [x], t. split; [done|]. split; [done|]. by destruct t.
  - destruct (IH H) as (b & c & Hr & Hb & Hc). exists (x :: b), c.
    split; [by rewrite Hr|]. done.
Qed.

Lemma dotInside_app b c :
  b <> [] -> c <> [] -> dotInside (b ++ "."%char :: c) = true.
Proof.
  intros Hb Hc. induction b as [|x b IH]; [done|].
  destruct b as [|y b].
  - simpl. by destruct c.
  - change (dotInside ((x :: y :: b) ++ "."%char :: c))
      with ((Ascii.eqb y "."
             && match b ++ "."%char :: c with [] => false | _ => true end)
            || dotInside ((y :: b) ++ "."%char :: c)).
    rewrite IH by done. apply orb_true_r.
Qed.

Lemma plainChar_not_at c : plainChar c = true -> Ascii.eqb c "@" = false.
Proof.
  unfold plainChar. intros H. apply andb_true_iff in H as [_ H].
  by apply negb_true_iff.
Qed.

Lemma forallb_Forall_true {A : Type} (f : A -> bool) (l : list A) :
  forallb f l = true <-> Forall (fun x => f x = true) l.
Proof.
  induction l as [|x l IH]; simpl; [by split; [constructor|]|].
  rewrite andb_true_iff, IH, Forall_cons. done.
Qed.

(** X19: the test of the email format in [updateProfile] accepts exactly
    the strings made of a local part, an ["@"], a domain, a ["."] and an
    ending, where the three parts are not empty and contain neither white
    space nor ["@"]. *)
Theorem emailRegex_test_shape s : emailRegex_test s = true <-> emailShape s.
Proof.
  unfold emailRegex_test, emailShape. split.
  - destruct (splitAt (list_ascii_of_string s)) as [[a r]|] eqn:Hs; [|done].
    apply splitAt_Some in Hs as [Hl _]. intros H.
    apply andb_true_iff in H as [H Hdot]. apply andb_true_iff in H as [H Hr].
    apply andb_true_iff in H as [Hne Ha].
    destruct (dotInside_split r Hdot) as (b & c & -> & Hb & Hc).
    exists a, b, c. split; [done|]. split; [by destruct a|]. split; [done|].
    split; [done|].
    apply forallb_Forall_true in Ha. apply forallb_Forall_true in Hr.
    apply Forall_app in Hr as [Hrb Hrc]. apply Forall_cons in Hrc as [_ Hrc].
    apply Forall_app. split; [done|]. by apply Forall_app.
  - intros (a & b & c & -> & Ha & Hb & Hc & Hall).
    apply Forall_app in Hall as [Hpa Hall]. apply Forall_app in Hall as [Hpb Hpc].
    rewrite splitAt_app.
    2: { eapply Forall_impl; [exact Hpa|]. intros x. apply plainChar_not_at. }
    apply andb_true_iff. split; [|by apply dotInside_app].
    apply andb_true_iff. split.
    + apply andb_true_iff. split; [by destruct a|]. by apply forallb_Forall_true.
    + apply forallb_Forall_true. apply Forall_app. split; [done|]. by constructor.
Qed.

(** *** More on the lock check and the counting of failures *)

(** X20: a failed login on a record that is not locked, whose last attempt
    is within the lockout duration, adds one to the counter and sets
    [lastLoginAttempt]; it is answered with the attempts that remain, or
    with [AccountLocked] when the counter reaches 3, and then the record
    is locked. *)
Theorem login_failure_counts tLock tTrack e password st u last :
  find (byEmail e) (users st) = Some u ->
  User.isLocked u = false ->
  0 <= User.loginAttempts u < 3 ->
  User.lastLoginAttempt u = Some last ->
  tLock - last < UserModel.lockoutDuration ->
  passwordValid password u = false ->
  result (AuthController.login tLock tTrack e password) st
  = (if User.loginAttempts u <? 2
     then AuthenticationFailed (Some (2 - User.loginAttempts u))
     else AccountLocked)
  /\ exists u',
       find (byEmail e) (users (run (AuthController.login tLock tTrack e password) st))
       = Some u'
       /\ User.loginAttempts u' = User.loginAttempts u + 1
       /\ User.lastLoginAttempt u' = Some tTrack
       /\ User.isLocked u' = negb (User.loginAttempts u <? 2).
Proof.
  intros Hf Hl Hn Hlast Hw Hp.
  destruct (login_failure_run tLock tTrack e password st u Hf Hl) as
    (u' & Hr & Hf' & Hn' & Hlast' & Hl' & _); [lia|right; eauto|done|].
  split.
  - rewrite Hr. unfold failureResponse. rewrite Hn'.
    destruct (Z.ltb_spec (User.loginAttempts u) 2);
      destruct (Z.ltb_spec 0 (3 - (User.loginAttempts u + 1))); try lia; [|done].
    do 2 f_equal. lia.
  - exists u'. split; [done|]. split; [done|]. split; [done|]. rewrite Hl'.
    destruct (Z.ltb_spec (User.loginAttempts u) 2);
      destruct (Z.leb_spec 3 (User.loginAttempts u + 1)); simpl; (done || lia).
Qed.

(** X21: a login with an email that has no record makes [register] refuse
    that email: the temporary record the login leaves is found by the
    lookup of [register], which answers [UserAlreadyExists] and changes
    nothing. *)
Theorem unknown_login_blocks_registration tLock tTrack e password now salt password' name st :
  find (byEmail e) (users st) = None ->
  let st1 := run (AuthController.login tLock tTrack e password) st in
  AuthController.register now salt e password' name st1 = (UserAlreadyExists, st1).
Proof.
  intros Hf st1.
  assert (Hf1 : find (byEmail e) (users st1) = Some (placeholder st tTrack e)).
  { unfold st1, run. rewrite (login_absent _ _ _ _ _ Hf). simpl.
    apply find_snoc; [done|]. by apply byEmail_refl. }
  unfold AuthController.register, UserModel.findByEmail, bind, get, ret. simpl.
  by rewrite Hf1.
Qed.

Lemma lockCheck_idempotent now u :
  lockCheck now (snd (lockCheck now u)) = lockCheck now u.
Proof.
  destruct u as [id em pw nm cr n last lk tok ex].
  unfold lockCheck; simpl. destruct lk; simpl; [done|].
  destruct last as [last|]; simpl; [|done].
  destruct ((3 <=? n) && (now - last <? UserModel.lockoutDuration)) eqn:Hc;
    simpl; [by rewrite Hc|].
  destruct (UserModel.lockoutDuration <=? now - last) eqn:Hs; simpl.
  - by rewrite Hs.
  - by rewrite Hc, Hs.
Qed.

(** X22: [isAccountLocked] can be repeated: asked again at the same time
    it gives the same answer and leaves the state it left the first time;
    and when it answers true it has changed nothing. *)
Theorem isAccountLocked_idempotent now e st :
  let st1 := run (UserModel.isAccountLocked now e) st in
  UserModel.isAccountLocked now e st1
  = (result (UserModel.isAccountLocked now e) st, st1)
  /\ (result (UserModel.isAccountLocked now e) st = true -> st1 = st).
Proof.
  intros st1. unfold st1, result, run.
  destruct (find (byEmail e) (users st)) as [u|] eqn:Hf.
  2: { rewrite (isAccountLocked_absent _ _ _ Hf). simpl.
       by rewrite (isAccountLocked_absent _ _ _ Hf). }
  destruct (found_index _ _ _ Hf) as (i & Hi & Hu).
  rewrite (isAccountLocked_found _ _ _ _ _ Hi Hu). simpl.
  assert (He : byEmail e (snd (lockCheck now u)) = true).
  { rewrite byEmail_lockCheck. apply findIndex_Some in Hi as (w & Hw & Hp).
    by assert (w = u) as -> by congruence. }
  split.
  - erewrite isAccountLocked_found.
    + rewrite lockCheck_idempotent. simpl. by rewrite list_insert_insert_eq.
    + simpl. by apply findIndex_insert.
    + simpl. apply list_lookup_insert_eq. by eapply findIndex_lt.
  - unfold lockCheck. destruct (User.isLocked u); simpl.
    { intros _. by rewrite list_insert_id, set_users_id. }
    destruct (User.lastLoginAttempt u); simpl; [|done].
    destruct (_ && _); simpl.
    { intros _. by rewrite list_insert_id, set_users_id. }
    by destruct (_ <=? _).
Qed.

(** *** Logins that overlap *)

(** A [login] resumed from its start until it has answered, with nothing
    in between, is the handler run as a whole. *)
Lemma login_by_points tLock tTrack e password st :
  resumeN 6 (mkLoginThread tLock tTrack e password BeforeLockCheck) st
  = (mkLoginThread tLock tTrack e password
       (Responded (fst (AuthController.login tLock tTrack e password st))),
     snd (AuthController.login tLock tTrack e password st)).
Proof.
  unfold AuthController.login, resumeN, resume, at_point, bind. simpl.
  destruct (UserModel.isAccountLocked tLock e st) as [[] st1]; simpl; [done|].
  unfold UserModel.findByEmail, bind, get, ret. simpl.
  destruct (find (byEmail e) (users st1)) as [u|]; simpl.
  2: { by destruct (UserModel.trackLoginAttempt tTrack e false st1). }
  unfold AuthController.verifyPassword.
  destruct (User.password u) as [| |digest]; simpl.
  1, 2: destruct (UserModel.trackLoginAttempt tTrack e false st1) as [? st2]; simpl;
        destruct (find (byEmail e) (users st2)); simpl; [by destruct (0 <? _)|done].
  destruct digest; simpl.
  { destruct (UserModel.trackLoginAttempt tTrack e false st1) as [? st2]; simpl.
    destruct (find (byEmail e) (users st2)); simpl; [by destruct (0 <? _)|done]. }
  unfold AuthController.bcryptCompare, bind, get, put, ret. simpl.
  destruct (bcrypt_compare password _); simpl.
  - by destruct (UserModel.trackLoginAttempt tTrack e true _).
  - destruct (UserModel.trackLoginAttempt tTrack e false _) as [? st2]; simpl.
    destruct (find (byEmail e) (users st2)); simpl; [by destruct (0 <? _)|done].
Qed.

Lemma interleaved_runSchedule schedule cfg :
  interleaved cfg -> interleaved (runSchedule schedule cfg).
Proof.
  revert cfg. induction schedule as [|k schedule IH]; intros cfg Hcfg; [done|].
  simpl. apply IH. by apply interleaved_advance.
Qed.

End Properties.

(** ** The operations at concrete inputs *)

Section Concrete.
#[local] Existing Instance demoExt.

Example janeRegistered_users : users janeRegistered = [janeRecord].
Proof. reflexivity. Qed.

Example janeLocked_users : users janeLocked = [janeLockedRecord].
Proof. reflexivity. Qed.

Example ghostTracked_users : users ghostTracked = [ghostRecord].
Proof. reflexivity. Qed.

Lemma janeLocked_reachable : AuthController.reachable janeLocked.
Proof.
  unfold janeLocked, janeRegistered, run.
  apply (AuthController.reachable_handle _ (AuthController.Login 4000 4001 jane "Wrong123")).
  apply (AuthController.reachable_handle _ (AuthController.Login 3000 3001 jane "Wrong123")).
  apply (AuthController.reachable_handle _ (AuthController.Login 2000 2001 jane "Wrong123")).
  apply (AuthController.reachable_handle _
           (AuthController.Register 1000 "s" jane "Password123" (JStr "Jane Doe"))).
  apply AuthController.reachable_initial.
Defined.

Lemma janeLocked_stepReachable : stepReachable janeLocked.
Proof.
  unfold stepReachable, janeLocked, janeRegistered.
  eapply rtc_l;
    [apply (step_handle (AuthController.Register 1000 "s" jane "Password123" (JStr "Jane Doe")))|].
  eapply rtc_l; [apply (step_handle (AuthController.Login 2000 2001 jane "Wrong123"))|].
  eapply rtc_l; [apply (step_handle (AuthController.Login 3000 3001 jane "Wrong123"))|].
  eapply rtc_l; [apply (step_handle (AuthController.Login 4000 4001 jane "Wrong123"))|].
  apply rtc_refl.
Defined.

(** C1: the lockout of [janeLocked] began at 4001 and lasts 900000 ms, yet
    a login at [afterLockout], and one a year later, is answered
    [AccountLocked] with the right password as with a wrong one, and the
    record keeps its 3 attempts and its lock: [isAccountLocked] returns on
    [isLocked] before it compares the elapsed time. *)
Theorem locked_after_lockout_duration :
  UserModel.lockoutDuration = 900000
  /\ afterLockout - 4001 >= UserModel.lockoutDuration
  /\ UserModel.isAccountLocked afterLockout jane janeLocked = (true, janeLocked)
  /\ AuthController.login afterLockout (afterLockout + 1) jane "Password123" janeLocked
     = (AccountLocked, janeLocked)
  /\ AuthController.login afterLockout (afterLockout + 1) jane "Wrong123" janeLocked
     = (AccountLocked, janeLocked)
  /\ AuthController.login (afterLockout + 31536000000) (afterLockout + 31536000001)
       jane "Password123" janeLocked
     = (AccountLocked, janeLocked)
  /\ find (byEmail jane) (users janeLocked) = Some janeLockedRecord.
Proof. vm_compute. repeat split; congruence. Qed.

Lemma login_while_locked_witness :
  AuthController.login 5000 5001 jane "Password123" janeLocked
  = (AccountLocked, janeLocked)
  /\ status AccountLocked = 423.
Proof.
  apply (login_while_locked 5000 5001 jane "Password123" janeLocked
           janeLockedRecord 4001); reflexivity.
Defined.

Lemma three_failures_then_locked_witness :
  result (AuthController.login 2000 2001 jane "Wrong123") janeRegistered
  = AuthenticationFailed (Some 2)
  /\ AuthController.login 5000 5001 jane "Password123" janeLocked
     = (AccountLocked, janeLocked).
Proof.
  destruct (three_failures_then_locked jane janeRegistered janeRecord
              "Wrong123" "Wrong123" "Wrong123" 2000 2001 3000 3001 4000 4001)
    as (H1 & _ & _ & H4); try reflexivity.
  split; [exact H1|]. apply H4. reflexivity.
Defined.

Lemma login_unknown_email_witness :
  AuthController.login 2000 2001 ghost "Guess123" initial
  = (AuthenticationFailed None, mkState [ghostRecord] 2 []).
Proof.
  destruct (login_unknown_email 2000 2001 ghost "Guess123" initial) as (H1 & _).
  - reflexivity.
  - exact H1.
Defined.

Lemma login_null_password_witness :
  result (AuthController.login 3000 3001 ghost "Guess123") ghostTracked
  <> LoginSuccessful ghostRecord "jwt".
Proof.
  destruct (login_null_password 3000 3001 ghost "Guess123" ghostTracked ghostRecord)
    as (_ & H2 & _); try reflexivity.
  apply H2.
Defined.

Lemma resetPassword_spec_witness :
  exists i u,
    findIndex (byEmail jane) (users janeWithToken) = Some i
    /\ users janeWithToken !! i = Some u
    /\ UserModel.resetPassword 6000 jane (JStr "tok") (JStr "s2$NewPass123") janeWithToken
       = (Some (UserModel.applyReset (JStr "s2$NewPass123") u),
          set_users (<[i := UserModel.applyReset (JStr "s2$NewPass123") u]>
                       (users janeWithToken)) janeWithToken).
Proof.
  pose proof (resetPassword_spec 6000 7000 7000 7001 "s3" jane (JStr "tok")
                (JStr "s2$NewPass123") (JStr "s3$Other123") "Other123"
                janeWithToken eq_refl eq_refl) as H.
  assert (Hv : tokenValid 6000 jane (JStr "tok") janeWithToken = true)
    by (vm_compute; reflexivity).
  rewrite Hv in H.
  destruct H as (i & u & Hi & Hu & H1 & _).
  exists i, u. split; [exact Hi|]. split; [exact Hu|]. exact H1.
Defined.

Lemma locked_implies_threshold_witness : 3 <= User.loginAttempts janeLockedRecord.
Proof.
  apply (locked_implies_threshold janeLocked janeLockedRecord).
  - exact janeLocked_stepReachable.
  - apply list_elem_of_here.
  - reflexivity.
Defined.

Lemma attempts_at_most_threshold_witness : User.loginAttempts janeLockedRecord <= 3.
Proof.
  apply (attempts_at_most_threshold janeLocked janeLockedRecord).
  - exact janeLocked_reachable.
  - apply list_elem_of_here.
Defined.

(** The bound of C10 is a property of the handlers: [trackLoginAttempt]
    called on its own counts past the threshold. *)
Example trackLoginAttempt_unguarded :
  User.loginAttempts <$>
    users (run (UserModel.trackLoginAttempt 6000 jane false) janeLocked)
  = [4].
Proof. reflexivity. Qed.

(** C6: jane is registered with a name and an email. [updateProfile] with
    a body that has a name and no email answers [ProfileUpdated] and stores
    [undefined] as her email, so that no login finds her account any more;
    with a body that has an email and no name it stores [undefined] as her
    name. The other fields are as they were. *)
Theorem updateProfile_erases_omitted_field :
  users janeRegistered = [janeRecord]
  /\ AuthController.updateProfile 1 (JStr "Jane Smith") JUndefined janeRegistered
     = (ProfileUpdated
          (withoutPassword
             (User.set_email JUndefined (User.set_name (JStr "Jane Smith") janeRecord))),
        mkState
          [User.set_email JUndefined (User.set_name (JStr "Jane Smith") janeRecord)]
          2 [])
  /\ find (byEmail jane)
       (users (run (AuthController.updateProfile 1 (JStr "Jane Smith") JUndefined)
                 janeRegistered))
     = None
  /\ users (run (AuthController.updateProfile 1 JUndefined (JStr "jane.smith@example.com"))
              janeRegistered)
     = [User.set_email (JStr "jane.smith@example.com")
          (User.set_name JUndefined janeRecord)].
Proof. vm_compute. repeat split; reflexivity. Qed.

(** C7, as stated: the store holds one record for jane's email, and
    [UserModel.create] with that email returns a new account and leaves
    two. *)
Lemma create_adds_second_record :
  let created :=
    UserModel.create 2000 jane (JStr "s$Other123") (JStr "Jane Roe") janeRegistered in
  countEmail jane janeRegistered = 1%nat
  /\ User.email (fst created) = jane
  /\ User.id (fst created) = 2
  /\ countEmail jane (snd created) = 2%nat.
Proof. vm_compute. repeat split; reflexivity. Qed.

(** *** The further properties at concrete inputs *)

Example janeOnce_users : users janeOnce = [janeOnceRecord].
Proof. reflexivity. Qed.

Example janeTwice_users : users janeTwice = [janeTwiceRecord].
Proof. reflexivity. Qed.

Example janeWithToken_users : users janeWithToken = [janeTokenRecord].
Proof. reflexivity. Qed.

Example janeAndBob_users : users janeAndBob = [janeRecord; bobRecord].
Proof. reflexivity. Qed.

Lemma janeRegistered_reachable : AuthController.reachable janeRegistered.
Proof.
  unfold janeRegistered, run.
  apply (AuthController.reachable_handle _
           (AuthController.Register 1000 "s" jane "Password123" (JStr "Jane Doe"))).
  apply AuthController.reachable_initial.
Defined.

Lemma janeWithToken_stepReachable : stepReachable janeWithToken.
Proof.
  unfold stepReachable, janeWithToken.
  eapply rtc_r; [exact janeLocked_stepReachable|].
  apply (step_handle (AuthController.RequestPasswordReset 5000 "tok" jane)).
Defined.

Lemma ids_fresh_and_distinct_witness :
  1 <= User.id janeLockedRecord < nextId janeLocked
  /\ (User.id janeLockedRecord = User.id janeLockedRecord -> 0%nat = 0%nat).
Proof.
  apply (ids_fresh_and_distinct janeLocked 0 0 janeLockedRecord janeLockedRecord).
  - exact janeLocked_stepReachable.
  - reflexivity.
  - reflexivity.
Defined.

Lemma reset_token_and_expiry_paired_witness :
  (User.passwordResetToken janeTokenRecord = JNull
   /\ User.passwordResetExpires janeTokenRecord = None)
  \/ (exists token expires,
        User.passwordResetToken janeTokenRecord = JStr token
        /\ User.passwordResetExpires janeTokenRecord = Some expires).
Proof.
  apply (reset_token_and_expiry_paired janeWithToken 0 janeTokenRecord).
  - exact janeWithToken_stepReachable.
  - reflexivity.
Defined.

Lemma locked_exactly_at_threshold_witness :
  0 <= User.loginAttempts janeLockedRecord
  /\ (User.isLocked janeLockedRecord = true <-> User.loginAttempts janeLockedRecord = 3).
Proof.
  apply (locked_exactly_at_threshold janeLocked 0 janeLockedRecord).
  - exact janeLocked_reachable.
  - reflexivity.
Defined.

Lemma login_reports_one_or_two_witness : 2 = 1 \/ 2 = 2.
Proof.
  apply (login_reports_one_or_two 2000 2001 jane "Wrong123" janeRegistered 2).
  - exact janeRegistered_reachable.
  - vm_compute. reflexivity.
Defined.

Lemma responses_carry_no_password_witness :
  User.password (withoutPassword janeRecord) = JUndefined.
Proof.
  apply (responses_carry_no_password
           (AuthController.Login 2000 2001 jane "Password123") janeRegistered).
  vm_compute. reflexivity.
Defined.

Lemma login_leaves_other_records_witness :
  users (run (AuthController.login 2000 2001 jane "Wrong123") janeAndBob) !! 1%nat
  = Some bobRecord.
Proof.
  apply (login_leaves_other_records 2000 2001 jane "Wrong123" janeAndBob 1 bobRecord).
  - reflexivity.
  - discriminate.
Defined.

Lemma handlers_keep_records_witness :
  nextId janeRegistered
  <= nextId (run (AuthController.handle
                    (AuthController.UpdateProfile 1 (JStr "Jane Smith") JUndefined))
               janeRegistered)
  /\ exists u',
       users (run (AuthController.handle
                     (AuthController.UpdateProfile 1 (JStr "Jane Smith") JUndefined))
                janeRegistered) !! 0%nat = Some u'
       /\ User.id u' = User.id janeRecord
       /\ User.createdAt u' = User.createdAt janeRecord.
Proof.
  apply (handlers_keep_records
           (AuthController.UpdateProfile 1 (JStr "Jane Smith") JUndefined)
           janeRegistered 0 janeRecord).
  reflexivity.
Defined.

Lemma reset_token_round_trip_witness :
  (is_Some (result (UserModel.verifyPasswordResetToken 6000 jane (JStr "tok")) janeWithToken)
   <-> JStr "tok" = JStr "tok" /\ 6000 <= 5000 + UserModel.resetTTL)
  /\ run (UserModel.verifyPasswordResetToken 6000 jane (JStr "tok")) janeWithToken
     = janeWithToken.
Proof.
  apply (reset_token_round_trip 5000 "tok" jane janeLocked janeLockedRecord 6000 (JStr "tok")).
  reflexivity.
Defined.

Lemma login_success_witness :
  exists i,
    users janeTwice !! i = Some janeTwiceRecord
    /\ AuthController.login 3500 3501 jane "Password123" janeTwice
       = (LoginSuccessful (withoutPassword janeTwiceRecord) "jwt",
          mkState
            [User.mk 1 jane (JStr "s$Password123") (JStr "Jane Doe") 1000
               0 (Some 3501) false JNull None]
            2 (bcryptCalls janeTwice ++ [("Password123", "s$Password123")])).
Proof.
  destruct (login_success 3500 3501 jane "Password123" janeTwice janeTwiceRecord)
    as (i & Hi & Hl); [reflexivity|reflexivity|reflexivity|reflexivity|].
  exists i. split; [exact Hi|]. rewrite Hl.
  assert (i = 0%nat) as ->.
  { destruct i as [|i]; [reflexivity|]. vm_compute in Hi. destruct i; discriminate. }
  vm_compute. reflexivity.
Defined.

Lemma login_failure_after_quiet_period_witness :
  result (AuthController.login 903001 903002 jane "Wrong123") janeTwice
  = AuthenticationFailed (Some 2).
Proof.
  destruct (login_failure_after_quiet_period 903001 903002 jane "Wrong123" janeTwice
              janeTwiceRecord 3001) as (H & _);
    [reflexivity|reflexivity|reflexivity|reflexivity
    |vm_compute; discriminate|reflexivity|exact H].
Defined.

Lemma register_then_login_witness :
  exists user token token',
    result (AuthController.register 1000 "s" jane "Password123" (JStr "Jane Doe")) initial
    = UserRegistered user token
    /\ User.id user = nextId initial
    /\ result (AuthController.login 2000 2001 jane "Password123") janeRegistered
       = LoginSuccessful user token'.
Proof.
  apply (register_then_login 1000 "s" jane "Password123" (JStr "Jane Doe") 2000 2001 initial).
  - reflexivity.
  - discriminate.
  - reflexivity.
Defined.

Lemma reset_then_login_witness :
  result (AuthController.resetPassword 6000 6001 "s2" jane (JStr "tok") "NewPass123")
    janeWithToken
  = PasswordResetSuccessful.
Proof.
  destruct (reset_then_login 5000 "tok" "s2" jane "NewPass123" 6000 6001 7000 7001
              janeLocked janeLockedRecord) as (H & _);
    [reflexivity|vm_compute; discriminate|vm_compute; discriminate
    |discriminate|reflexivity|exact H].
Defined.

Lemma updateProfile_effect_witness :
  run (AuthController.updateProfile 2 (JStr "Bob Roe") jane) janeAndBob = janeAndBob.
Proof.
  pose proof (updateProfile_effect 2 (JStr "Bob Roe") jane janeAndBob) as H.
  cbv zeta in H.
  replace (result (AuthController.updateProfile 2 (JStr "Bob Roe") jane) janeAndBob)
    with EmailAlreadyExists in H by (vm_compute; reflexivity).
  exact H.
Defined.

Lemma create_then_find_witness :
  result (UserModel.findById 2)
    (run (UserModel.create 1500 bob (JStr "s$Hunter2222") (JStr "Bob Roe")) janeRegistered)
  = Some bobRecord.
Proof.
  destruct (create_then_find 1500 bob (JStr "s$Hunter2222") (JStr "Bob Roe") janeRegistered)
    as (_ & H & _).
  - intros i u. change (users janeRegistered) with [janeRecord].
    destruct i as [|i]; simpl; [intros [= <-]; reflexivity|]. by destruct i.
  - split; vm_compute; discriminate.
  - exact H.
Defined.

Lemma delete_then_find_witness :
  result (UserModel.delete 1) janeAndBob = true
  /\ result (UserModel.findById 1) (run (UserModel.delete 1) janeAndBob) = None
  /\ result (UserModel.findById 2) (run (UserModel.delete 1) janeAndBob)
     = Some bobRecord.
Proof.
  destruct (delete_then_find 1 janeAndBob) as (H1 & _ & H2 & H3).
  - split; vm_compute; discriminate.
  - intros i j u v. change (users janeAndBob) with [janeRecord; bobRecord].
    destruct i as [|[|i]], j as [|[|j]]; simpl; try done;
      intros [= <-] [= <-]; done.
  - split; [exact H1|]. split; [exact H2|].
    rewrite (H3 2); [reflexivity|split; vm_compute; discriminate|discriminate].
Defined.

Lemma janeAndBob_reachable : AuthController.reachable janeAndBob.
Proof.
  unfold janeAndBob, run.
  apply (AuthController.reachable_handle _
           (AuthController.Register 1500 "s" bob "Hunter2222" (JStr "Bob Roe"))).
  exact janeRegistered_reachable.
Defined.

Lemma truthy_emails_distinct_witness :
  User.email janeRecord <> User.email bobRecord.
Proof.
  apply (truthy_emails_distinct janeAndBob 0 1 janeRecord bobRecord).
  - exact janeAndBob_reachable.
  - reflexivity.
  - reflexivity.
  - discriminate.
  - reflexivity.
Defined.

Lemma login_failure_counts_witness :
  result (AuthController.login 3000 3001 jane "Wrong123") janeOnce
  = AuthenticationFailed (Some 1).
Proof.
  destruct (login_failure_counts 3000 3001 jane "Wrong123" janeOnce janeOnceRecord 2001)
    as (H & _);
    [reflexivity|reflexivity|split; [discriminate|reflexivity]
    |reflexivity|reflexivity|reflexivity|exact H].
Defined.

Lemma unknown_login_blocks_registration_witness :
  AuthController.register 3000 "s" ghost "Password123" (JStr "Ghost") ghostTracked
  = (UserAlreadyExists, ghostTracked).
Proof.
  apply (unknown_login_blocks_registration 2000 2001 ghost "Guess123" 3000 "s"
           "Password123" (JStr "Ghost") initial).
  reflexivity.
Defined.

Lemma isAccountLocked_idempotent_witness :
  UserModel.isAccountLocked 903001 jane
    (run (UserModel.isAccountLocked 903001 jane) janeTwice)
  = (result (UserModel.isAccountLocked 903001 jane) janeTwice,
     run (UserModel.isAccountLocked 903001 jane) janeTwice).
Proof.
  destruct (isAccountLocked_idempotent 903001 jane janeTwice) as (H & _).
  exact H.
Defined.

(** C10, as stated: four logins for jane with a wrong password that
    overlap. Each passes the lock check and starts [bcrypt.compare] while
    the counter is still 0; then each records its attempt. The store they
    leave has [loginAttempts] 4 for jane. *)
Lemma overlapping_logins_exceed_threshold :
  interleaved (runSchedule overlapped (janeRegistered, fourLogins))
  /\ users (runSchedule overlapped (janeRegistered, fourLogins)).1 = [janeOverrun]
  /\ th_point <$> (runSchedule overlapped (janeRegistered, fourLogins)).2
     = [Responded (AuthenticationFailed (Some 2));
        Responded (AuthenticationFailed (Some 1));
        Responded AccountLocked; Responded AccountLocked]
  /\ ~ User.loginAttempts janeOverrun <= 3.
Proof.
  split.
  - apply interleaved_runSchedule.
    apply (interleaved_request janeRegistered (take 3 fourLogins) 2003 2103 jane "Wrong123").
    apply (interleaved_request janeRegistered (take 2 fourLogins) 2002 2102 jane "Wrong123").
    apply (interleaved_request janeRegistered (take 1 fourLogins) 2001 2101 jane "Wrong123").
    apply (interleaved_request janeRegistered [] 2000 2100 jane "Wrong123").
    apply interleaved_start. exact janeRegistered_reachable.
  - split; [vm_compute; reflexivity|]. split; [vm_compute; reflexivity|].
    simpl. lia.
Qed.

End Concrete.
